(** * child_wait_timeout: the thread-based timeout racer

    A shallow embedding of [src/platform/wait_timeout_thread_untraced.c].

    The C functions are written as programs of a small free monad over the
    library calls they issue (pthread, clock, waitid) and over the accesses
    to the shared [proc_info_t].  Two semantics read these programs:

    - a thread-local one ([steps], [runs]): the calls one thread issues,
      with the replies it got, for any replies whatsoever;
    - a two-thread machine ([gstep], [grun]) with a mutex, a condition
      variable, deferred cancellation, a monotonic clock and a process
      table, driven by a schedule of actions. *)

From Stdlib Require Import ZArith List Bool Lia.
Import ListNotations.
Open Scope Z_scope.

(** ** Platform: what the system headers fix *)

(** The integer types listed in the [_Generic] selection of
    [get_max_time_t]. *)
Inductive c_int_type : Type :=
| SignedChar | UnsignedChar
| SignedShort | UnsignedShort
| SignedInt | UnsignedInt
| SignedLong | UnsignedLong
| SignedLongLong | UnsignedLongLong.

Definition is_signed (ty : c_int_type) : bool :=
  match ty with
  | SignedChar | SignedShort | SignedInt | SignedLong | SignedLongLong => true
  | _ => false
  end.

(** [<limits.h>], [<time.h>], [<errno.h>] and [<sys/wait.h>] are system
    headers, not files of the repository: the widths of the integer types,
    the type behind [time_t] and the values of the macros are parameters. *)
Class Platform : Type := {
  bits : c_int_type -> Z;
  time_t : c_int_type;
  ETIMEDOUT : Z;
  WNOWAIT : Z;
  WEXITED : Z
}.

(** What the theorems ask of a platform: [long] and [time_t] have at least
    32 bits, error numbers are positive, and the two wait options are
    distinct single bits. *)
Class PlatformOK (P : Platform) : Prop := {
  long_bits_ok : 32 <= bits SignedLong;
  time_bits_ok : 32 <= bits time_t;
  ETIMEDOUT_pos : 0 < ETIMEDOUT;
  WNOWAIT_set : Z.land (Z.lor WNOWAIT WEXITED) WNOWAIT <> 0;
  WEXITED_set : Z.land (Z.lor WNOWAIT WEXITED) WEXITED <> 0
}.

(** Linux on x86-64 (LP64, glibc). *)
Definition lp64_bits (ty : c_int_type) : Z :=
  match ty with
  | SignedChar | UnsignedChar => 8
  | SignedShort | UnsignedShort => 16
  | SignedInt | UnsignedInt => 32
  | SignedLong | UnsignedLong => 64
  | SignedLongLong | UnsignedLongLong => 64
  end.

Definition linux_x86_64 : Platform :=
  {| bits := lp64_bits;
     time_t := SignedLong;
     ETIMEDOUT := 110;
     WNOWAIT := 16777216;
     WEXITED := 4 |}.

(** Linux on a 32-bit target with the historical 32-bit [time_t]. *)
Definition ilp32_bits (ty : c_int_type) : Z :=
  match ty with
  | SignedChar | UnsignedChar => 8
  | SignedShort | UnsignedShort => 16
  | SignedInt | UnsignedInt => 32
  | SignedLong | UnsignedLong => 32
  | SignedLongLong | UnsignedLongLong => 64
  end.

Definition linux_ilp32 : Platform :=
  {| bits := ilp32_bits;
     time_t := SignedLong;
     ETIMEDOUT := 110;
     WNOWAIT := 16777216;
     WEXITED := 4 |}.

Record timespec : Type := mk_timespec { tv_sec : Z; tv_nsec : Z }.

Definition timespec_zero : timespec := mk_timespec 0 0.

Definition NSEC_PER_SEC : Z := 1000000000.

(** A [timespec] as a count of nanoseconds. *)
Definition ts_nanos (ts : timespec) : Z := tv_sec ts * NSEC_PER_SEC + tv_nsec ts.

Definition UINT32_MAX : Z := 4294967295.

(** ** Library calls and programs *)

Inductive clockid_t : Type := CLOCK_REALTIME | CLOCK_MONOTONIC.

Inductive idtype_t : Type := P_ALL | P_PID | P_PGID.

(** The data fields of [proc_info_t].  There is one mutex and one condition
    variable per call, so the [cond] and [mutex] members name fixed
    objects and are not stored. *)
Inductive field : Type := f_pid | f_return_val.

(** Start routines handed to [pthread_create]. *)
Inductive routine : Type := fn_wait_for_process.

(** What a thread asks of its environment: the library calls of the source,
    the accesses to the shared [proc_info_t] and the assignment to
    [errno]. *)
Inductive call : Type :=
| Pthread_mutex_init
| Pthread_mutex_destroy
| Pthread_mutex_lock
| Pthread_mutex_unlock
| Pthread_condattr_init
| Pthread_condattr_setclock (clk : clockid_t)
| Pthread_condattr_destroy
| Pthread_cond_init
| Pthread_cond_destroy
| Pthread_cond_signal
| Pthread_cond_timedwait (abstime : timespec)
| Pthread_create (start : routine)
| Pthread_cancel
| Pthread_join
| Clock_gettime (clk : clockid_t)
| Waitid (idtype : idtype_t) (id : Z) (options : Z)
| Load (f : field)
| Store (f : field) (v : Z)
| Set_errno (v : Z).

(** What comes back: the return value and, for [clock_gettime], the
    [timespec] written through its pointer argument. *)
Record reply : Type := mk_reply { rc : Z; out_ts : timespec }.

Definition ret_code (z : Z) : reply := mk_reply z timespec_zero.

Inductive prog (R : Type) : Type :=
| Ret (r : R)
| Call (c : call) (k : reply -> prog R).

Arguments Ret {R} r.
Arguments Call {R} c k.

Fixpoint bind {A B : Type} (p : prog A) (f : A -> prog B) : prog B :=
  match p with
  | Ret a => f a
  | Call c k => Call c (fun r => bind (k r) f)
  end.

Notation "x <- p ;; q" := (bind p (fun x => q))
  (at level 61, p at next level, right associativity).
Notation "p ;; q" := (bind p (fun _ => q))
  (at level 61, right associativity).

(** A call whose result is its return value. *)
Definition invoke (c : call) : prog Z := Call c (fun r => Ret (rc r)).

Definition pthread_mutex_init : prog Z := invoke Pthread_mutex_init.
Definition pthread_mutex_destroy : prog Z := invoke Pthread_mutex_destroy.
Definition pthread_mutex_lock : prog Z := invoke Pthread_mutex_lock.
Definition pthread_mutex_unlock : prog Z := invoke Pthread_mutex_unlock.
Definition pthread_condattr_init : prog Z := invoke Pthread_condattr_init.
Definition pthread_condattr_setclock (clk : clockid_t) : prog Z :=
  invoke (Pthread_condattr_setclock clk).
Definition pthread_condattr_destroy : prog Z := invoke Pthread_condattr_destroy.
Definition pthread_cond_init : prog Z := invoke Pthread_cond_init.
Definition pthread_cond_destroy : prog Z := invoke Pthread_cond_destroy.
Definition pthread_cond_signal : prog Z := invoke Pthread_cond_signal.
Definition pthread_cond_timedwait (abstime : timespec) : prog Z :=
  invoke (Pthread_cond_timedwait abstime).
Definition pthread_create (start : routine) : prog Z := invoke (Pthread_create start).
Definition pthread_cancel : prog Z := invoke Pthread_cancel.
Definition pthread_join : prog Z := invoke Pthread_join.
Definition waitid (idtype : idtype_t) (id options : Z) : prog Z :=
  invoke (Waitid idtype id options).
Definition load (f : field) : prog Z := invoke (Load f).
Definition store (f : field) (v : Z) : prog Z := invoke (Store f v).
Definition set_errno (v : Z) : prog Z := invoke (Set_errno v).
Definition clock_gettime (clk : clockid_t) : prog (Z * timespec) :=
  Call (Clock_gettime clk) (fun r => Ret (rc r, out_ts r)).

(** ** One thread on its own *)

(** A call together with the reply it got. *)
Definition event : Type := (call * reply)%type.

(** [steps p t p']: issuing the calls of [t] and receiving its replies
    takes [p] to the remaining program [p']. *)
Fixpoint steps {R : Type} (p : prog R) (t : list event) (p' : prog R) {struct t}
  : Prop :=
  match t with
  | [] => p' = p
  | e :: t' =>
      match p with
      | Ret _ => False
      | Call c k => c = fst e /\ steps (k (snd e)) t' p'
      end
  end.

(** [runs p t r]: [p] returns [r] after exactly the calls of [t]. *)
Definition runs {R : Type} (p : prog R) (t : list event) (r : R) : Prop :=
  steps p t (Ret r).

(** Running a program against an oracle that answers the [n]-th call. *)
Fixpoint exec {R : Type} (oracle : nat -> call -> reply) (n : nat) (p : prog R)
  : R * list event :=
  match p with
  | Ret r => (r, [])
  | Call c k =>
      let a := oracle n c in
      let (r, t) := exec oracle (S n) (k a) in
      (r, (c, a) :: t)
  end.

Section Model.
Context {P : Platform}.

(** Largest value of an integer type. *)
Definition max_of (ty : c_int_type) : Z :=
  if is_signed ty then 2 ^ (bits ty - 1) - 1 else 2 ^ bits ty - 1.

Definition min_of (ty : c_int_type) : Z :=
  if is_signed ty then - 2 ^ (bits ty - 1) else 0.

(** Conversion of a mathematical value to an integer type: reduction
    modulo [2 ^ bits], into the signed range for a signed type. *)
Definition cast (ty : c_int_type) (z : Z) : Z :=
  if is_signed ty
  then (z + 2 ^ (bits ty - 1)) mod 2 ^ bits ty - 2 ^ (bits ty - 1)
  else z mod 2 ^ bits ty.

Definition SCHAR_MAX : Z := max_of SignedChar.
Definition UCHAR_MAX : Z := max_of UnsignedChar.
Definition SHRT_MAX : Z := max_of SignedShort.
Definition USHRT_MAX : Z := max_of UnsignedShort.
Definition INT_MAX : Z := max_of SignedInt.
Definition UINT_MAX : Z := max_of UnsignedInt.
Definition LONG_MAX : Z := max_of SignedLong.
Definition ULONG_MAX : Z := max_of UnsignedLong.
Definition LLONG_MAX : Z := max_of SignedLongLong.
Definition ULLONG_MAX : Z := max_of UnsignedLongLong.

(** [get_max_time_t], lines 50-62: the [_Generic] selection on
    [(time_t)0]. *)
Definition get_max_time_t : Z :=
  match time_t with
  | SignedChar => SCHAR_MAX
  | UnsignedChar => UCHAR_MAX
  | SignedShort => SHRT_MAX
  | UnsignedShort => USHRT_MAX
  | SignedInt => INT_MAX
  | UnsignedInt => UINT_MAX
  | SignedLong => LONG_MAX
  | UnsignedLong => ULONG_MAX
  | SignedLongLong => LLONG_MAX
  | UnsignedLongLong => ULLONG_MAX
  end.

(** The deadline arithmetic of [wait_timeout_untraced_internal_4], lines
    75-89, on the clock reading [ts]: [None] is the [return -1] of line 85,
    [Some] the [ts] handed to [pthread_cond_timedwait].  Every assignment
    converts to the type of the variable assigned; [/] and [%] on [long]
    truncate toward zero. *)
Definition internal_4_deadline (ts : timespec) (timeout_ms : Z) : option timespec :=
  let seconds := cast time_t (timeout_ms / 1000) in
  let nano_seconds :=
    cast SignedLong
      (tv_nsec ts +
       cast SignedLong (cast SignedLong (timeout_ms mod 1000) * cast SignedLong 1000000)) in
  let seconds := cast time_t (seconds + Z.quot nano_seconds 1000000000) in
  let nano_seconds := cast SignedLong (Z.rem nano_seconds 1000000000) in
  if cast time_t (get_max_time_t - seconds) <? tv_sec ts then None
  else Some (mk_timespec (cast time_t (tv_sec ts + seconds)) nano_seconds).

(** The seconds the timeout adds to [tv_sec], carry included. *)
Definition carried_seconds (ts : timespec) (timeout_ms : Z) : Z :=
  timeout_ms / 1000 + (tv_nsec ts + (timeout_ms mod 1000) * 1000000) / 1000000000.

(** A clock reading as the C types give it. *)
Definition clock_reading (ts : timespec) : Prop :=
  0 <= tv_sec ts <= get_max_time_t /\ 0 <= tv_nsec ts < NSEC_PER_SEC.

(** ** The source *)

(** [wait_for_process], lines 24-48. *)
Definition wait_for_process : prog unit :=
  pid <- load f_pid ;;
  r <- waitid P_PID pid (Z.lor WNOWAIT WEXITED) ;;
  (if r =? -1 then store f_return_val (-1) else store f_return_val 0) ;;
  pthread_mutex_lock ;;
  pthread_cond_signal ;;
  pthread_mutex_unlock ;;
  Ret tt.

(** [wait_timeout_untraced_internal_4], lines 65-95. *)
Definition wait_timeout_untraced_internal_4 (timeout_ms : Z) : prog Z :=
  got <- clock_gettime CLOCK_MONOTONIC ;;
  if negb (fst got =? 0) then Ret (-1)
  else
    match internal_4_deadline (snd got) timeout_ms with
    | None => Ret (-1)
    | Some ts =>
        ret <- pthread_cond_timedwait ts ;;
        Ret ret
    end.

(** [wait_timeout_untraced_internal_3], lines 98-135. *)
Definition wait_timeout_untraced_internal_3 (timeout_ms : Z) : prog Z :=
  created <- pthread_create fn_wait_for_process ;;
  if negb (created =? 0) then Ret (-1)
  else
    pthread_mutex_lock ;;
    ret <- wait_timeout_untraced_internal_4 timeout_ms ;;
    pthread_mutex_unlock ;;
    (if ret =? ETIMEDOUT then pthread_cancel else Ret 0) ;;
    pthread_join ;;
    if ret =? ETIMEDOUT then
      set_errno ETIMEDOUT ;;
      Ret (-1)
    else
      load f_return_val.

(** [wait_timeout_untraced_internal_2], lines 137-159. *)
Definition wait_timeout_untraced_internal_2 (pid timeout_ms : Z) : prog Z :=
  store f_pid pid ;;
  store f_return_val (-1) ;;
  clk <- pthread_condattr_setclock CLOCK_MONOTONIC ;;
  if negb (clk =? 0) then Ret (-1)
  else
    ini <- pthread_cond_init ;;
    if negb (ini =? 0) then Ret (-1)
    else
      result <- wait_timeout_untraced_internal_3 timeout_ms ;;
      pthread_cond_destroy ;;
      Ret result.

(** [wait_timeout_untraced_internal_1], lines 161-175. *)
Definition wait_timeout_untraced_internal_1 (pid timeout_ms : Z) : prog Z :=
  ini <- pthread_condattr_init ;;
  if negb (ini =? 0) then Ret (-1)
  else
    result <- wait_timeout_untraced_internal_2 pid timeout_ms ;;
    pthread_condattr_destroy ;;
    Ret result.

(** [wait_timeout_untraced], lines 177-189. *)
Definition wait_timeout_untraced (pid timeout_ms : Z) : prog Z :=
  ini <- pthread_mutex_init ;;
  if negb (ini =? 0) then Ret (-1)
  else
    result <- wait_timeout_untraced_internal_1 pid timeout_ms ;;
    pthread_mutex_destroy ;;
    Ret result.

Definition body (start : routine) : prog unit :=
  match start with
  | fn_wait_for_process => wait_for_process
  end.

(** ** Two threads and their environment *)

(** The calling thread and the thread it spawns. *)
Inductive tid : Type := Racer | Waiter.

Definition tid_eqb (a b : tid) : bool :=
  match a, b with
  | Racer, Racer | Waiter, Waiter => true
  | _, _ => false
  end.

Inductive thread_state : Type :=
| Unborn
| Live (p : prog unit)
| Dead (cancelled : bool).

(** The target of [waitid]: not a child of the caller, running, terminated
    and not yet collected, or collected. *)
Inductive proc_state : Type := NoChild | Alive | Zombie | Reaped.

Record config : Type := mk_config {
  main : prog Z;                (* what the calling thread has left to do *)
  worker : thread_state;        (* the spawned thread *)
  joined : bool;                (* pthread_join has returned *)
  cancel_req : bool;            (* a cancellation request is pending *)
  owner : option tid;           (* the thread holding the mutex *)
  parked : option tid;          (* the thread blocked on the condition variable *)
  signalled : bool;             (* the blocked thread has been signalled *)
  mem : field -> Z;             (* the shared proc_info_t *)
  now : Z;                      (* CLOCK_MONOTONIC, in nanoseconds *)
  procs : Z -> proc_state;      (* the process table, by pid *)
  errno : tid -> Z;             (* errno, one per thread *)
  log : list (tid * event)      (* the calls returned so far, oldest first *)
}.

Definition set_main (p : prog Z) (s : config) : config :=
  mk_config p (worker s) (joined s) (cancel_req s) (owner s) (parked s)
    (signalled s) (mem s) (now s) (procs s) (errno s) (log s).
Definition set_worker (w : thread_state) (s : config) : config :=
  mk_config (main s) w (joined s) (cancel_req s) (owner s) (parked s)
    (signalled s) (mem s) (now s) (procs s) (errno s) (log s).
Definition set_joined (b : bool) (s : config) : config :=
  mk_config (main s) (worker s) b (cancel_req s) (owner s) (parked s)
    (signalled s) (mem s) (now s) (procs s) (errno s) (log s).
Definition set_cancel_req (b : bool) (s : config) : config :=
  mk_config (main s) (worker s) (joined s) b (owner s) (parked s)
    (signalled s) (mem s) (now s) (procs s) (errno s) (log s).
Definition set_owner (o : option tid) (s : config) : config :=
  mk_config (main s) (worker s) (joined s) (cancel_req s) o (parked s)
    (signalled s) (mem s) (now s) (procs s) (errno s) (log s).
Definition set_parked (o : option tid) (s : config) : config :=
  mk_config (main s) (worker s) (joined s) (cancel_req s) (owner s) o
    (signalled s) (mem s) (now s) (procs s) (errno s) (log s).
Definition set_signalled (b : bool) (s : config) : config :=
  mk_config (main s) (worker s) (joined s) (cancel_req s) (owner s) (parked s)
    b (mem s) (now s) (procs s) (errno s) (log s).
Definition set_mem (m : field -> Z) (s : config) : config :=
  mk_config (main s) (worker s) (joined s) (cancel_req s) (owner s) (parked s)
    (signalled s) m (now s) (procs s) (errno s) (log s).
Definition set_now (n : Z) (s : config) : config :=
  mk_config (main s) (worker s) (joined s) (cancel_req s) (owner s) (parked s)
    (signalled s) (mem s) n (procs s) (errno s) (log s).
Definition set_procs (ps : Z -> proc_state) (s : config) : config :=
  mk_config (main s) (worker s) (joined s) (cancel_req s) (owner s) (parked s)
    (signalled s) (mem s) (now s) ps (errno s) (log s).
Definition set_errno_of (e : tid -> Z) (s : config) : config :=
  mk_config (main s) (worker s) (joined s) (cancel_req s) (owner s) (parked s)
    (signalled s) (mem s) (now s) (procs s) e (log s).
Definition add_log (x : tid * event) (s : config) : config :=
  mk_config (main s) (worker s) (joined s) (cancel_req s) (owner s) (parked s)
    (signalled s) (mem s) (now s) (procs s) (errno s) (log s ++ [x]).

Definition field_eqb (a b : field) : bool :=
  match a, b with
  | f_pid, f_pid | f_return_val, f_return_val => true
  | _, _ => false
  end.

Definition upd_field (m : field -> Z) (f : field) (v : Z) : field -> Z :=
  fun g => if field_eqb g f then v else m g.
Definition upd_tid (m : tid -> Z) (t : tid) (v : Z) : tid -> Z :=
  fun u => if tid_eqb u t then v else m u.
Definition upd_proc (m : Z -> proc_state) (q : Z) (v : proc_state) : Z -> proc_state :=
  fun u => if u =? q then v else m u.

Definition owner_is (t : tid) (s : config) : bool :=
  match owner s with
  | Some u => tid_eqb u t
  | None => false
  end.

Definition timespec_of (ns : Z) : timespec :=
  mk_timespec (ns / NSEC_PER_SEC) (ns mod NSEC_PER_SEC).

(** Error numbers the library reports (Linux values); the source never
    reads them. *)
Definition EPERM : Z := 1.
Definition ECHILD : Z := 10.
Definition EINVAL : Z := 22.

(** [waitid] is the one cancellation point among the calls of the
    spawned thread; locking, signalling and unlocking are not. *)
Definition is_cancellation_point (c : call) : bool :=
  match c with
  | Waitid _ _ _ => true
  | Pthread_cond_timedwait _ => true
  | Pthread_join => true
  | _ => false
  end.

(** What a call does: it cannot proceed yet, it blocks the thread on the
    condition variable, or it returns. *)
Inductive result : Type :=
| Stuck
| Park (s : config)
| Return (r : reply) (s : config).

(** The library, as POSIX describes it.  [env] is the environment's choice
    where the caller does not determine the reply: the error number of an
    initialisation, of [pthread_create] or of [clock_gettime] (0 for
    success), and for a thread blocked in [pthread_cond_timedwait] the way
    it wakes (0 when signalled, [ETIMEDOUT] when the deadline has
    passed). *)
Definition do_call (t : tid) (c : call) (env : Z) (s : config) : result :=
  match c with
  | Pthread_mutex_init => Return (ret_code env) s
  | Pthread_mutex_destroy => Return (ret_code 0) s
  | Pthread_mutex_lock =>
      match owner s with
      | None => Return (ret_code 0) (set_owner (Some t) s)
      | Some _ => Stuck
      end
  | Pthread_mutex_unlock =>
      if owner_is t s then Return (ret_code 0) (set_owner None s)
      else Return (ret_code EPERM) s
  | Pthread_condattr_init => Return (ret_code env) s
  | Pthread_condattr_setclock _ => Return (ret_code env) s
  | Pthread_condattr_destroy => Return (ret_code 0) s
  | Pthread_cond_init => Return (ret_code env) s
  | Pthread_cond_destroy => Return (ret_code 0) s
  | Pthread_cond_signal =>
      (* no effect when no thread is blocked on the condition variable *)
      match parked s with
      | Some _ => Return (ret_code 0) (set_signalled true s)
      | None => Return (ret_code 0) s
      end
  | Pthread_cond_timedwait abstime =>
      match parked s with
      | None =>
          (* release the mutex and block, atomically *)
          if owner_is t s
          then Park (set_parked (Some t) (set_signalled false (set_owner None s)))
          else Stuck
      | Some u =>
          if tid_eqb u t then
            match owner s with
            | Some _ => Stuck
            | None =>
                (* wake up and take the mutex again *)
                if (env =? 0) && signalled s then
                  Return (ret_code 0)
                    (set_parked None (set_signalled false (set_owner (Some t) s)))
                else if (env =? ETIMEDOUT) && (ts_nanos abstime <=? now s) then
                  Return (ret_code ETIMEDOUT)
                    (set_parked None (set_signalled false (set_owner (Some t) s)))
                else Stuck
            end
          else Stuck
      end
  | Pthread_create start =>
      if env =? 0 then
        match worker s with
        | Unborn => Return (ret_code 0) (set_worker (Live (body start)) s)
        | _ => Stuck
        end
      else Return (ret_code env) s
  | Pthread_cancel =>
      match worker s with
      | Live _ => Return (ret_code 0) (set_cancel_req true s)
      | _ => Return (ret_code 0) s
      end
  | Pthread_join =>
      match worker s with
      | Dead _ => if joined s then Stuck else Return (ret_code 0) (set_joined true s)
      | _ => Stuck
      end
  | Clock_gettime _ =>
      if env =? 0 then Return (mk_reply 0 (timespec_of (now s))) s
      else Return (ret_code (-1)) (set_errno_of (upd_tid (errno s) t env) s)
  | Waitid idtype id options =>
      match idtype with
      | P_PID =>
          if Z.land options WEXITED =? 0 then
            Return (ret_code (-1)) (set_errno_of (upd_tid (errno s) t EINVAL) s)
          else
            match procs s id with
            | Alive => Stuck
            | Zombie =>
                if Z.land options WNOWAIT =? 0
                then Return (ret_code 0) (set_procs (upd_proc (procs s) id Reaped) s)
                else Return (ret_code 0) s
            | NoChild | Reaped =>
                Return (ret_code (-1)) (set_errno_of (upd_tid (errno s) t ECHILD) s)
            end
      | _ => Stuck
      end
  | Load f => Return (ret_code (mem s f)) s
  | Store f v => Return (ret_code 0) (set_mem (upd_field (mem s) f v) s)
  | Set_errno v => Return (ret_code 0) (set_errno_of (upd_tid (errno s) t v) s)
  end.

(** What the scheduler and the outside world can do. *)
Inductive action : Type :=
| Sched (t : tid) (env : Z)     (* thread [t] goes on with its next call *)
| Tick (d : Z)                  (* [d] nanoseconds pass *)
| ChildExit (q : Z)             (* process [q] terminates *)
| DeliverCancel.                (* the spawned thread acts on a pending
                                   cancellation at a cancellation point *)

Definition gstep (a : action) (s : config) : option config :=
  match a with
  | Sched Racer env =>
      match main s with
      | Ret _ => None
      | Call c k =>
          match do_call Racer c env s with
          | Stuck => None
          | Park s' => Some s'
          | Return r s' => Some (set_main (k r) (add_log (Racer, (c, r)) s'))
          end
      end
  | Sched Waiter env =>
      match worker s with
      | Live (Ret _) => Some (set_worker (Dead false) s)
      | Live (Call c k) =>
          match do_call Waiter c env s with
          | Stuck => None
          | Park s' => Some s'
          | Return r s' => Some (set_worker (Live (k r)) (add_log (Waiter, (c, r)) s'))
          end
      | _ => None
      end
  | Tick d =>
      if (0 <? d) && ((now s + d) / NSEC_PER_SEC <=? get_max_time_t)
      then Some (set_now (now s + d) s)
      else None
  | ChildExit q =>
      match procs s q with
      | Alive => Some (set_procs (upd_proc (procs s) q Zombie) s)
      | _ => None
      end
  | DeliverCancel =>
      match worker s with
      | Live (Call c _) =>
          if cancel_req s && is_cancellation_point c
          then Some (set_worker (Dead true) s)
          else None
      | _ => None
      end
  end.

Fixpoint grun (acts : list action) (s : config) : option config :=
  match acts with
  | [] => Some s
  | a :: rest =>
      match gstep a s with
      | Some s' => grun rest s'
      | None => None
      end
  end.

(** A call of [wait_timeout_untraced pid timeout_ms] made when the clock
    reads [clock0] nanoseconds, with process table [procs0] and the
    caller's [errno] at [errno0]. *)
Definition init (pid timeout_ms clock0 : Z) (procs0 : Z -> proc_state) (errno0 : Z)
  : config :=
  {| main := wait_timeout_untraced pid timeout_ms;
     worker := Unborn;
     joined := false;
     cancel_req := false;
     owner := None;
     parked := None;
     signalled := false;
     mem := fun _ => 0;
     now := clock0;
     procs := procs0;
     errno := fun _ => errno0;
     log := [] |}.

(** [s] can be reached from [s0]. *)
Definition reachable (s0 s : config) : Prop :=
  exists acts, grun acts s0 = Some s.

(** The shapes of a step. *)
Inductive step_shape (a : action) (s s' : config) : Prop :=
| shape_return (t : tid) (env : Z) (c : call) (r : reply) (s1 : config) :
    a = Sched t env ->
    do_call t c env s = Return r s1 ->
    match t with
    | Racer => exists k, main s = Call c k /\
                 s' = set_main (k r) (add_log (Racer, (c, r)) s1)
    | Waiter => exists k, worker s = Live (Call c k) /\
                 s' = set_worker (Live (k r)) (add_log (Waiter, (c, r)) s1)
    end ->
    step_shape a s s'
| shape_park (t : tid) (env : Z) (c : call) :
    a = Sched t env ->
    do_call t c env s = Park s' ->
    match t with
    | Racer => exists k, main s = Call c k
    | Waiter => exists k, worker s = Live (Call c k)
    end ->
    step_shape a s s'
| shape_exit (env : Z) (u : unit) :
    a = Sched Waiter env -> worker s = Live (Ret u) ->
    s' = set_worker (Dead false) s ->
    step_shape a s s'
| shape_tick (d : Z) :
    a = Tick d -> s' = set_now (now s + d) s -> step_shape a s s'
| shape_child_exit (q : Z) :
    a = ChildExit q -> procs s q = Alive ->
    s' = set_procs (upd_proc (procs s) q Zombie) s ->
    step_shape a s s'
| shape_cancel (c : call) (k : reply -> prog unit) :
    a = DeliverCancel -> worker s = Live (Call c k) ->
    cancel_req s = true -> is_cancellation_point c = true ->
    s' = set_worker (Dead true) s ->
    step_shape a s s'.

(** ** Reading an execution *)

Fixpoint log_of (t : tid) (l : list (tid * event)) : list event :=
  match l with
  | [] => []
  | (u, e) :: l' => if tid_eqb u t then e :: log_of t l' else log_of t l'
  end.

Definition returned (s : config) : option Z :=
  match main s with
  | Ret r => Some r
  | Call _ _ => None
  end.

Inductive worker_status : Type := WUnborn | WLive | WDead (cancelled : bool).

Definition status (w : thread_state) : worker_status :=
  match w with
  | Unborn => WUnborn
  | Live _ => WLive
  | Dead b => WDead b
  end.

(** What is left for the caller to see once the call has returned: the
    return value and its own [errno]. *)
Definition caller_sees (s : config) : option (Z * Z) :=
  match returned s with
  | Some r => Some (r, errno s Racer)
  | None => None
  end.

(** The state a schedule ends in ([s] itself when it cannot be run). *)
Definition final (acts : list action) (s : config) : config :=
  match grun acts s with
  | Some s' => s'
  | None => s
  end.

(** The schedule can be run to its end from [s]. *)
Definition completes (acts : list action) (s : config) : bool :=
  match grun acts s with
  | Some _ => true
  | None => false
  end.

(** The call the spawned thread is about to issue. *)
Definition next_call (s : config) : option call :=
  match worker s with
  | Live (Call c _) => Some c
  | _ => None
  end.

(** The call the calling thread is about to issue. *)
Definition pending_call (s : config) : option call :=
  match main s with
  | Call c _ => Some c
  | Ret _ => None
  end.

(** Who issued what, in the order the calls returned. *)
Definition who_called (l : list (tid * event)) : list (tid * call) :=
  map (fun x => (fst x, fst (snd x))) l.

(** ** Reading the calls of one thread *)

Definition calls (t : list event) : list call := map fst t.

Definition is_create (c : call) : bool :=
  match c with Pthread_create _ => true | _ => false end.
Definition is_cancel (c : call) : bool :=
  match c with Pthread_cancel => true | _ => false end.
Definition is_join (c : call) : bool :=
  match c with Pthread_join => true | _ => false end.
Definition is_lock (c : call) : bool :=
  match c with Pthread_mutex_lock => true | _ => false end.
Definition is_unlock (c : call) : bool :=
  match c with Pthread_mutex_unlock => true | _ => false end.
Definition is_signal (c : call) : bool :=
  match c with Pthread_cond_signal => true | _ => false end.
Definition is_timedwait (c : call) : bool :=
  match c with Pthread_cond_timedwait _ => true | _ => false end.
Definition is_clock (c : call) : bool :=
  match c with Clock_gettime _ => true | _ => false end.
Definition is_waitid (c : call) : bool :=
  match c with Waitid _ _ _ => true | _ => false end.
Definition is_set_errno (c : call) : bool :=
  match c with Set_errno _ => true | _ => false end.
Definition is_store_to (f : field) (c : call) : bool :=
  match c with Store g _ => field_eqb g f | _ => false end.
Definition is_load_of (f : field) (c : call) : bool :=
  match c with Load g => field_eqb g f | _ => false end.

(** The initialisations and the thread creation: the steps whose failure
    ends the call before anything is waited for. *)
Definition is_setup (c : call) : bool :=
  match c with
  | Pthread_mutex_init | Pthread_condattr_init | Pthread_condattr_setclock _
  | Pthread_cond_init | Pthread_create _ => true
  | _ => false
  end.

(** Some call of the kind [sel] was issued. *)
Definition issued (sel : call -> bool) (t : list event) : bool :=
  existsb (fun e => sel (fst e)) t.

(** The return value of the first call of the kind [sel]. *)
Definition reply_to (sel : call -> bool) (t : list event) : option Z :=
  match find (fun e => sel (fst e)) t with
  | Some e => Some (rc (snd e))
  | None => None
  end.

(** The calls that follow the first call of the kind [sel]. *)
Fixpoint after (sel : call -> bool) (l : list call) : list call :=
  match l with
  | [] => []
  | c :: l' => if sel c then l' else after sel l'
  end.

(** The thread was created: [pthread_create] returned 0. *)
Definition spawned (t : list event) : bool :=
  existsb (fun e => is_create (fst e) && (rc (snd e) =? 0)) t.

(** The wait on the condition variable returned [ETIMEDOUT]. *)
Definition timed_out (t : list event) : bool :=
  existsb (fun e => is_timedwait (fst e) && (rc (snd e) =? ETIMEDOUT)) t.

(** An initialisation or the thread creation returned an error. *)
Definition setup_failed (t : list event) : bool :=
  existsb (fun e => is_setup (fst e) && negb (rc (snd e) =? 0)) t.

(** The clock reading a successful [clock_gettime] delivered. *)
Definition clock_read (t : list event) : option timespec :=
  match find (fun e => is_clock (fst e) && (rc (snd e) =? 0)) t with
  | Some e => Some (out_ts (snd e))
  | None => None
  end.

(** The deadline handed to [pthread_cond_timedwait]. *)
Definition armed (t : list event) : option timespec :=
  match find (fun e => is_timedwait (fst e)) t with
  | Some (Pthread_cond_timedwait d, _) => Some d
  | _ => None
  end.

(** The values stored into field [f], oldest first. *)
Definition stored (f : field) (t : list event) : list Z :=
  flat_map (fun e => match fst e with
                     | Store g v => if field_eqb g f then [v] else []
                     | _ => []
                     end) t.

(** The outcome the waiter recorded: the last value it stored into
    [return_val]. *)
Definition recorded (t : list event) : option Z :=
  match rev (stored f_return_val t) with
  | v :: _ => Some v
  | [] => None
  end.

(** [errno] of a thread after the calls of [t], from [e0]: the last value
    assigned by [errno = v]; unknown once a failing [clock_gettime] has
    set it. *)
Definition errno_after (e0 : Z) (t : list event) : option Z :=
  fold_left (fun acc e =>
               match fst e with
               | Set_errno v => Some v
               | Clock_gettime _ => if rc (snd e) =? 0 then acc else None
               | Waitid _ _ _ => if rc (snd e) =? -1 then None else acc
               | _ => acc
               end) t (Some e0).

(** The values the thread assigned to [errno], oldest first. *)
Definition errno_writes (t : list event) : list Z :=
  flat_map (fun e => match fst e with Set_errno v => [v] | _ => [] end) t.

(** Does the thread hold the mutex after the calls of [t]?  Waiting on the
    condition variable gives the mutex up and takes it back before
    returning. *)
Definition holds_mutex (t : list event) : bool :=
  fold_left (fun held e =>
               match fst e with
               | Pthread_mutex_lock => true
               | Pthread_mutex_unlock => false
               | _ => held
               end) t false.

(** Every call of the kind [sel] in [t] was issued with the mutex held by
    the issuing thread. *)
Fixpoint guarded_from (sel : call -> bool) (held : bool) (t : list event) : bool :=
  match t with
  | [] => true
  | e :: t' =>
      (if sel (fst e) then held else true) &&
      guarded_from sel
        (match fst e with
         | Pthread_mutex_lock => true
         | Pthread_mutex_unlock => false
         | _ => held
         end) t'
  end.

Definition guarded (sel : call -> bool) (t : list event) : bool :=
  guarded_from sel false t.

(** The resources a thread has acquired and not yet given back. *)
Record resources : Type := mk_resources {
  mutex_live : bool;        (* initialised mutex *)
  condattr_live : bool;     (* initialised condition-variable attribute *)
  cond_live : bool;         (* initialised condition variable *)
  thread_live : bool;       (* created thread not yet joined *)
  teardown_ok : bool        (* the condition variable was destroyed with no
                               thread left, the mutex with neither *)
}.

Definition no_resources : resources := mk_resources false false false false true.

Definition account (res : resources) (e : event) : resources :=
  let ok := rc (snd e) =? 0 in
  match fst e with
  | Pthread_mutex_init =>
      mk_resources (mutex_live res || ok) (condattr_live res) (cond_live res)
        (thread_live res) (teardown_ok res)
  | Pthread_mutex_destroy =>
      mk_resources false (condattr_live res) (cond_live res) (thread_live res)
        (teardown_ok res && negb (cond_live res) && negb (thread_live res))
  | Pthread_condattr_init =>
      mk_resources (mutex_live res) (condattr_live res || ok) (cond_live res)
        (thread_live res) (teardown_ok res)
  | Pthread_condattr_destroy =>
      mk_resources (mutex_live res) false (cond_live res) (thread_live res)
        (teardown_ok res)
  | Pthread_cond_init =>
      mk_resources (mutex_live res) (condattr_live res) (cond_live res || ok)
        (thread_live res) (teardown_ok res)
  | Pthread_cond_destroy =>
      mk_resources (mutex_live res) (condattr_live res) false (thread_live res)
        (teardown_ok res && negb (thread_live res))
  | Pthread_create _ =>
      mk_resources (mutex_live res) (condattr_live res) (cond_live res)
        (thread_live res || ok) (teardown_ok res)
  | Pthread_join =>
      mk_resources (mutex_live res) (condattr_live res) (cond_live res) false
        (teardown_ok res)
  | _ => res
  end.

Definition outstanding (t : list event) : resources :=
  fold_left account t no_resources.

(** How many calls of the kind [sel] were issued. *)
Definition count (sel : call -> bool) (t : list event) : nat :=
  length (filter (fun e => sel (fst e)) t).

End Model.

(** ** Concrete executions *)

(** A process table with the single child [q]. *)
Definition one_child (q : Z) (st : proc_state) : Z -> proc_state :=
  fun u => if u =? q then st else NoChild.

(** [wait_timeout_untraced(42, 2000)] on Linux x86-64, five seconds after
    boot, the caller's [errno] being 0 and process 42 in state [st]. *)
Definition call_on (st : proc_state) : config :=
  @init linux_x86_64 42 2000 5000000000 (one_child 42 st) 0.

(** The same call with a ten-second timeout, five seconds before the
    clock runs out of [time_t], process 42 having terminated already. *)
Definition call_late : config :=
  @init linux_x86_64 42 10000 9223372036854775802000000000 (one_child 42 Zombie) 0.

Definition ts_late : timespec := mk_timespec 9223372036854775802 0.

(** The late call on a 32-bit [time_t]. *)
Definition call_late_32 : config :=
  @init linux_ilp32 42 10000 2147483644000000000 (one_child 42 Zombie) 0.

Definition go : action := Sched Racer 0.
Definition wk : action := Sched Waiter 0.

(** The process terminates while the calling thread waits. *)
Definition run_exit : list action :=
  repeat go 10 ++ [wk; ChildExit 42] ++ repeat wk 6 ++ repeat go 7.

(** The process outlives the deadline: the wait expires, the thread is
    cancelled inside [waitid]. *)
Definition run_timeout : list action :=
  repeat go 10 ++ [wk; Tick 2000000000; Sched Racer 110; go; go; DeliverCancel]
  ++ repeat go 5.

(** The spawned thread runs to its end before the calling thread takes
    the mutex; two seconds later the wait expires. *)
Definition run_lost : list action :=
  repeat go 7 ++ repeat wk 7 ++ repeat go 3
  ++ [Tick 2000000000; Sched Racer 110] ++ repeat go 7.

(** The same, the process terminating right after the thread was
    created. *)
Definition run_lost_during : list action :=
  repeat go 7 ++ [ChildExit 42] ++ repeat wk 7 ++ repeat go 3
  ++ [Tick 2000000000; Sched Racer 110] ++ repeat go 7.

(** [clock_gettime] fails with [EINVAL]. *)
Definition run_clock_fails : list action :=
  repeat go 8 ++ [Sched Racer 22; go] ++ repeat wk 7 ++ repeat go 5.

(** The clock is read, the deadline is not computed. *)
Definition run_overflow : list action :=
  repeat go 10 ++ repeat wk 7 ++ repeat go 5.

(** [pthread_create] fails with [EAGAIN]. *)
Definition run_create_fails : list action :=
  repeat go 6 ++ [Sched Racer 11] ++ repeat go 3.


(** Up to the point where the spawned thread is about to record its
    outcome. *)
Definition run_to_store : list action := repeat go 7 ++ repeat wk 2.

(** The process has terminated; the spawned thread holds the mutex and
    is about to release it, the calling thread waits. *)
Definition run_to_unlock : list action :=
  repeat go 10 ++ [wk; ChildExit 42] ++ repeat wk 4.

(** Up to the point where the calling thread, woken, is about to destroy
    the condition variable. *)
Definition run_to_destroy : list action :=
  repeat go 10 ++ [wk; ChildExit 42] ++ repeat wk 6 ++ repeat go 4.

(** [clock_gettime] fails while process 42 lives: the calling thread
    goes on to [pthread_join], the spawned thread to [waitid]. *)
Definition run_clock_fails_early : list action :=
  repeat go 8 ++ [Sched Racer 22; go; wk].

(** * Proofs *)

(** ** Tactics: following a program call by call *)

Ltac unfold_src :=
  cbv [wait_timeout_untraced wait_timeout_untraced_internal_1
       wait_timeout_untraced_internal_2 wait_timeout_untraced_internal_3
       wait_timeout_untraced_internal_4 wait_for_process
       pthread_mutex_init pthread_mutex_destroy pthread_mutex_lock
       pthread_mutex_unlock pthread_condattr_init pthread_condattr_setclock
       pthread_condattr_destroy pthread_cond_init pthread_cond_destroy
       pthread_cond_signal pthread_cond_timedwait pthread_create
       pthread_cancel pthread_join waitid load store set_errno
       clock_gettime invoke runs] in *.

Ltac norm H := cbn [steps bind fst snd rc out_ts negb] in H.

(** Decide the test the program is stopped at. *)
Ltac split_head H :=
  repeat match type of H with
  | context [if negb (?x =? ?y) then _ else _] =>
      destruct (Z.eqb_spec x y); norm H
  | context [if (?x =? ?y) then _ else _] =>
      destruct (Z.eqb_spec x y); norm H
  | context [match internal_4_deadline ?a ?b with _ => _ end] =>
      destruct (internal_4_deadline a b) eqn:?; norm H
  end.

(** One more call of the trace, or its end. *)
Ltac step_inv H :=
  match type of H with
  | steps _ ?t _ =>
      destruct t as [|[? [? ?]] t];
      [ norm H; split_head H
      | norm H; split_head H;
        first [ contradiction | destruct H as [? H]; subst; norm H ] ]
  end.

(** All complete runs of a program. *)
Ltac all_runs H :=
  unfold_src; cbn [bind] in H;
  repeat (step_inv H; try discriminate H;
          try match type of H with Ret _ = Ret _ => injection H as -> end).

(** All partial runs of a program, the remaining program kept in [H]. *)
Ltac all_steps H :=
  unfold_src; cbn [bind] in H;
  repeat (step_inv H).

Ltac do_call_inv H :=
  cbn [do_call] in H;
  repeat match type of H with
  | context [match ?x with _ => _ end] => destruct x eqn:?
  end;
  try discriminate H;
  first [injection H as <- <- | injection H as <-].

Ltac observe :=
  cbv [calls spawned timed_out setup_failed issued reply_to after clock_read
       armed stored recorded errno_after holds_mutex guarded guarded_from
       outstanding account no_resources];
  cbn.

Ltac booleans :=
  try (exfalso; pose proof ETIMEDOUT_pos; lia);
  repeat match goal with
         | H : ?x <> ?y |- _ => apply Z.eqb_neq in H
         end;
  subst.

Ltac settle :=
  observe;
  repeat match goal with
         | H : (_ =? _) = false |- _ => rewrite H
         end;
  rewrite ?Z.eqb_refl; cbn.

(** ** The deadline arithmetic *)

Section Arithmetic.
Context {P : Platform} {OK : PlatformOK P}.

Lemma get_max_time_t_max : get_max_time_t = max_of time_t.
Proof. unfold get_max_time_t. destruct time_t; reflexivity. Qed.

Lemma cast_id (ty : c_int_type) (z : Z) :
  1 <= bits ty -> min_of ty <= z <= max_of ty -> cast ty z = z.
Proof.
  unfold cast, min_of, max_of. intros Hb Hz.
  assert (Hp : 2 ^ bits ty = 2 * 2 ^ (bits ty - 1)).
  { replace (bits ty) with (Z.succ (bits ty - 1)) at 1 by lia.
    rewrite Z.pow_succ_r by lia. reflexivity. }
  assert (Hq : 0 < 2 ^ (bits ty - 1)) by (apply Z.pow_pos_nonneg; lia).
  destruct (is_signed ty).
  - rewrite Z.mod_small by lia. lia.
  - apply Z.mod_small. lia.
Qed.

Lemma wide_range (ty : c_int_type) :
  32 <= bits ty -> 2147483647 <= max_of ty /\ min_of ty <= 0.
Proof.
  intros Hb. unfold max_of, min_of.
  assert (H31 : 2 ^ 31 <= 2 ^ (bits ty - 1)) by (apply Z.pow_le_mono_r; lia).
  assert (H32 : 2 ^ 32 <= 2 ^ bits ty) by (apply Z.pow_le_mono_r; lia).
  change (2 ^ 31) with 2147483648 in H31.
  change (2 ^ 32) with 4294967296 in H32.
  destruct (is_signed ty); lia.
Qed.

Lemma cast_small (ty : c_int_type) (z : Z) :
  32 <= bits ty -> 0 <= z <= 2147483647 -> cast ty z = z.
Proof.
  intros Hb Hz. destruct (wide_range ty Hb). apply cast_id; lia.
Qed.

Lemma time_max_wide : 2147483647 <= get_max_time_t.
Proof. rewrite get_max_time_t_max. apply wide_range, time_bits_ok. Qed.

Lemma cast_time (z : Z) : 0 <= z <= get_max_time_t -> cast time_t z = z.
Proof.
  intros Hz. rewrite get_max_time_t_max in Hz.
  destruct (wide_range time_t time_bits_ok).
  apply cast_id; [pose proof time_bits_ok|]; lia.
Qed.

Lemma carried_seconds_bounds (ts : timespec) (ms : Z) :
  0 <= tv_nsec ts < NSEC_PER_SEC -> 0 <= ms <= UINT32_MAX ->
  0 <= ms / 1000 <= 4294967 /\
  0 <= tv_nsec ts + ms mod 1000 * 1000000 <= 1998999999 /\
  0 <= (tv_nsec ts + ms mod 1000 * 1000000) / 1000000000 <= 1 /\
  0 <= carried_seconds ts ms <= 4294968.
Proof.
  unfold NSEC_PER_SEC, UINT32_MAX, carried_seconds. intros Hn Hms.
  assert (H1 : 0 <= ms / 1000 <= 4294967).
  { split; [apply Z.div_pos; lia|].
    assert (ms / 1000 < 4294968) by (apply Z.div_lt_upper_bound; lia). lia. }
  pose proof (Z.mod_pos_bound ms 1000 ltac:(lia)) as H2.
  assert (H3 : 0 <= (tv_nsec ts + ms mod 1000 * 1000000) / 1000000000 <= 1).
  { split; [apply Z.div_pos; lia|].
    assert ((tv_nsec ts + ms mod 1000 * 1000000) / 1000000000 < 2)
      by (apply Z.div_lt_upper_bound; lia).
    lia. }
  lia.
Qed.

(** The C computation, conversions and all, is the exact sum whenever its
    inputs are a clock reading and a 32-bit timeout. *)
Lemma internal_4_deadline_eq (ts : timespec) (ms : Z) :
  clock_reading ts -> 0 <= ms <= UINT32_MAX ->
  internal_4_deadline ts ms =
    if get_max_time_t - carried_seconds ts ms <? tv_sec ts then None
    else Some (mk_timespec (tv_sec ts + carried_seconds ts ms)
                 ((tv_nsec ts + ms mod 1000 * 1000000) mod 1000000000)).
Proof.
  intros [Hs Hn] Hms.
  destruct (carried_seconds_bounds ts ms Hn Hms) as (H1 & H2 & H3 & H4).
  pose proof time_max_wide as Hmax.
  pose proof long_bits_ok as Hl. pose proof time_bits_ok as Ht.
  unfold internal_4_deadline.
  rewrite (cast_small time_t (ms / 1000)) by lia.
  pose proof (Z.mod_pos_bound ms 1000 ltac:(lia)) as Hm.
  rewrite (cast_small SignedLong (ms mod 1000)) by lia.
  rewrite (cast_small SignedLong 1000000) by lia.
  rewrite (cast_small SignedLong (ms mod 1000 * 1000000)) by lia.
  rewrite (cast_small SignedLong (tv_nsec ts + ms mod 1000 * 1000000)) by lia.
  rewrite Z.quot_div_nonneg by lia.
  rewrite Z.rem_mod_nonneg by lia.
  pose proof (Z.mod_pos_bound (tv_nsec ts + ms mod 1000 * 1000000) 1000000000
                ltac:(lia)) as Hr.
  fold (carried_seconds ts ms).
  rewrite (cast_small time_t (carried_seconds ts ms)) by lia.
  rewrite (cast_small SignedLong _) by lia.
  rewrite (cast_time (get_max_time_t - carried_seconds ts ms)) by lia.
  destruct (Z.ltb_spec (get_max_time_t - carried_seconds ts ms) (tv_sec ts)).
  - reflexivity.
  - rewrite cast_time by lia. reflexivity.
Qed.

Lemma deadline_nanos (ts : timespec) (ms : Z) :
  0 <= ms ->
  ts_nanos (mk_timespec (tv_sec ts + carried_seconds ts ms)
              ((tv_nsec ts + ms mod 1000 * 1000000) mod 1000000000))
  = ts_nanos ts + ms * 1000000.
Proof.
  intros Hms. unfold ts_nanos, carried_seconds, NSEC_PER_SEC. simpl.
  pose proof (Z.div_mod ms 1000 ltac:(lia)) as Hd.
  pose proof (Z.div_mod (tv_nsec ts + ms mod 1000 * 1000000) 1000000000 ltac:(lia)) as He.
  lia.
Qed.

End Arithmetic.

Section Deadline.
Context {P : Platform} {OK : PlatformOK P}.

(** C3.  On a clock reading and a 32-bit timeout (zero included), when no
    overflow is detected the deadline handed to [pthread_cond_timedwait]
    is the reading plus exactly [timeout_ms] milliseconds, with [tv_nsec]
    in [0, 10^9) and [tv_sec] not wrapped, so it grows strictly with the
    timeout; when the seconds would exceed the largest [time_t] the
    function returns -1 after the clock read alone, with no deadline
    written and no wait. *)
Theorem deadline_exact_or_rejected (ts : timespec) (timeout_ms : Z) :
  clock_reading ts -> 0 <= timeout_ms <= UINT32_MAX ->
  match internal_4_deadline ts timeout_ms with
  | Some d =>
      tv_sec d = tv_sec ts + carried_seconds ts timeout_ms /\
      tv_sec ts <= tv_sec d <= get_max_time_t /\
      0 <= tv_nsec d < NSEC_PER_SEC /\
      ts_nanos d = ts_nanos ts + timeout_ms * 1000000 /\
      (forall ms' d', timeout_ms < ms' <= UINT32_MAX ->
         internal_4_deadline ts ms' = Some d' -> ts_nanos d < ts_nanos d') /\
      (forall t r, runs (wait_timeout_untraced_internal_4 timeout_ms) t r ->
         clock_read t = Some ts ->
         calls t = [Clock_gettime CLOCK_MONOTONIC; Pthread_cond_timedwait d] /\
         reply_to is_timedwait t = Some r)
  | None =>
      get_max_time_t < tv_sec ts + carried_seconds ts timeout_ms /\
      (forall t r, runs (wait_timeout_untraced_internal_4 timeout_ms) t r ->
         clock_read t = Some ts ->
         calls t = [Clock_gettime CLOCK_MONOTONIC] /\ r = -1)
  end.
Proof.
  intros Hts Hms.
  pose proof (internal_4_deadline_eq ts timeout_ms Hts Hms) as Heq.
  destruct Hts as [Hs Hn].
  destruct (carried_seconds_bounds ts timeout_ms Hn Hms) as (H1 & H2 & H3 & H4).
  destruct (Z.ltb_spec (get_max_time_t - carried_seconds ts timeout_ms) (tv_sec ts))
    as [Hlt|Hge].
  - rewrite Heq. split; [lia|].
    intros t r Hrun Hclk. all_runs Hrun; cbn in Hclk.
    + injection Hclk as ->. congruence.
    + auto.
    + unfold clock_read in Hclk. cbn in Hclk.
      destruct (Z.eqb_spec rc0 0); [contradiction | discriminate].
  - rewrite Heq. cbn [tv_sec tv_nsec].
    split; [reflexivity|]. split; [lia|].
    split; [apply Z.mod_pos_bound; reflexivity|].
    split; [apply deadline_nanos; lia|].
    split.
    + intros ms' d' Hms' Hd'.
      rewrite (internal_4_deadline_eq ts ms' (conj Hs Hn)) in Hd' by lia.
      destruct (_ <? _); [discriminate|]. injection Hd' as <-.
      rewrite !deadline_nanos by lia. lia.
    + intros t r Hrun Hclk. all_runs Hrun; cbn in Hclk.
      * injection Hclk as ->.
        match goal with H : internal_4_deadline _ _ = Some _ |- _ =>
          rewrite Heq in H; injection H as <- end.
        split; reflexivity.
      * injection Hclk as ->. congruence.
      * unfold clock_read in Hclk. cbn in Hclk.
        destruct (Z.eqb_spec rc0 0); [contradiction | discriminate].
Qed.

End Deadline.

(** ** Generic facts on traces and executions *)

Lemma steps_app {R : Type} (t t' : list event) :
  forall (p p' p'' : prog R),
    steps p t p' -> steps p' t' p'' -> steps p (t ++ t') p''.
Proof.
  induction t as [|e t IH]; intros p p' p'' H H'; cbn in *.
  - subst. exact H'.
  - destruct p; [contradiction|]. destruct H as [-> H].
    split; [reflexivity|]. eapply IH; eauto.
Qed.

Lemma steps_snoc {R : Type} (p : prog R) (t : list event) (c : call)
      (k : reply -> prog R) (r : reply) :
  steps p t (Call c k) -> steps p (t ++ [(c, r)]) (k r).
Proof.
  intros H. eapply steps_app; [exact H|]. cbn. auto.
Qed.

Lemma steps_Ret_nil {R : Type} (x : R) (t : list event) (p' : prog R) :
  steps (Ret x) t p' -> t = [] /\ p' = Ret x.
Proof. destruct t; cbn; [auto | contradiction]. Qed.

Lemma log_of_app (t : tid) (l l' : list (tid * event)) :
  log_of t (l ++ l') = log_of t l ++ log_of t l'.
Proof.
  induction l as [|[u e] l IH]; cbn; [reflexivity|].
  destruct (tid_eqb u t); cbn; rewrite IH; reflexivity.
Qed.

Lemma log_of_snoc_same (t : tid) (l : list (tid * event)) (e : event) :
  log_of t (l ++ [(t, e)]) = log_of t l ++ [e].
Proof. rewrite log_of_app. cbn. destruct t; reflexivity. Qed.

Lemma log_of_snoc_other (t u : tid) (l : list (tid * event)) (e : event) :
  tid_eqb u t = false -> log_of t (l ++ [(u, e)]) = log_of t l.
Proof. intros H. rewrite log_of_app. cbn. rewrite H. apply app_nil_r. Qed.

Lemma issued_snoc (sel : call -> bool) (t : list event) (e : event) :
  issued sel (t ++ [e]) = issued sel t || sel (fst e).
Proof. unfold issued. rewrite existsb_app. cbn. rewrite orb_false_r. reflexivity. Qed.

Lemma spawned_snoc (t : list event) (e : event) :
  spawned (t ++ [e]) = spawned t || (is_create (fst e) && (rc (snd e) =? 0)).
Proof. unfold spawned. rewrite existsb_app. cbn. rewrite orb_false_r. reflexivity. Qed.

Lemma stored_snoc (f : field) (t : list event) (e : event) :
  stored f (t ++ [e]) =
  stored f t ++ match fst e with
                | Store g v => if field_eqb g f then [v] else []
                | _ => []
                end.
Proof. unfold stored. rewrite flat_map_app. cbn. rewrite app_nil_r. reflexivity. Qed.

Lemma errno_after_snoc (e0 : Z) (t : list event) (e : event) :
  errno_after e0 (t ++ [e]) =
  match fst e with
  | Set_errno v => Some v
  | Clock_gettime _ => if rc (snd e) =? 0 then errno_after e0 t else None
  | Waitid _ _ _ => if rc (snd e) =? -1 then None else errno_after e0 t
  | _ => errno_after e0 t
  end.
Proof. unfold errno_after. rewrite fold_left_app. reflexivity. Qed.

Lemma holds_mutex_snoc (t : list event) (e : event) :
  holds_mutex (t ++ [e]) =
  match fst e with
  | Pthread_mutex_lock => true
  | Pthread_mutex_unlock => false
  | _ => holds_mutex t
  end.
Proof. unfold holds_mutex. rewrite fold_left_app. reflexivity. Qed.

Lemma reply_to_In (sel : call -> bool) (t : list event) (r : Z) :
  reply_to sel t = Some r ->
  exists c a, In (c, a) t /\ sel c = true /\ rc a = r.
Proof.
  unfold reply_to. destruct (find (fun e => sel (fst e)) t) as [[c a]|] eqn:Hf; [|discriminate].
  intros H. injection H as <-. apply find_some in Hf. destruct Hf as [Hin Hs].
  exists c, a. auto.
Qed.

Lemma issued_calls (sel : call -> bool) (t : list event) :
  issued sel t = existsb sel (calls t).
Proof.
  unfold issued, calls. induction t as [|e t IH]; cbn; [reflexivity|].
  rewrite IH. reflexivity.
Qed.

Lemma returned_main {P : Platform} (s : config) (r : Z) :
  returned s = Some r -> main s = Ret r.
Proof. unfold returned. destruct (main s); [|discriminate]. congruence. Qed.

Lemma In_snoc {A : Type} (x y : A) (l : list A) :
  In x (l ++ [y]) <-> In x l \/ x = y.
Proof.
  rewrite in_app_iff. cbn. intuition (subst; auto).
Qed.

(** ** One thread on its own: the two programs *)

Section ThreadLocal.
Context {P : Platform}.

Lemma last_snoc {A} (l : list A) (x d : A) : last (l ++ [x]) d = x.
Proof. apply last_last. Qed.

(** Where the calling thread can be, and what it has done by then. *)
Lemma racer_points (pid ms : Z) (t : list event) (p' : prog Z) :
  steps (wait_timeout_untraced pid ms) t p' ->
  match p' with
  | Ret _ => True
  | Call (Store f v) _ =>
      spawned t = false /\ issued (is_load_of f_return_val) t = false
  | Call (Pthread_create st) _ =>
      st = fn_wait_for_process /\
      last (stored f_pid t) 0 = pid /\ last (stored f_return_val t) 0 = -1
  | Call (Waitid _ _ _) _ => False
  | Call (Load f) _ => f = f_return_val /\ issued is_join t = true
  | Call Pthread_cond_signal _ => False
  | Call _ _ => True
  end.
Proof.
  intros H. all_steps H; subst p'; cbn; auto.
Qed.

Lemma waiter_points (t : list event) (p' : prog unit) :
  steps wait_for_process t p' ->
  match p' with
  | Ret _ => True
  | Call (Store f v) _ =>
      f = f_return_val /\ stored f_return_val t = [] /\ (v = 0 \/ v = -1) /\
      holds_mutex t = false
  | Call (Waitid i q o) _ =>
      i = P_PID /\ o = Z.lor WNOWAIT WEXITED /\
      exists a, t = [(Load f_pid, a)] /\ q = rc a
  | Call (Load f) _ => f = f_pid
  | Call Pthread_cond_signal _ => holds_mutex t = true /\ issued is_signal t = false
  | Call (Pthread_create _) _ => False
  | Call (Pthread_cond_timedwait _) _ => False
  | Call Pthread_join _ => False
  | Call Pthread_cancel _ => False
  | Call _ _ => True
  end.
Proof.
  intros H. all_steps H; subst p'; cbn; eauto 10.
Qed.

End ThreadLocal.

Section Exits.
Context {P : Platform} {OK : PlatformOK P}.

(** Every way [wait_timeout_untraced] returns. *)
Lemma racer_exits (pid ms e0 : Z) (t : list event) (r : Z) :
  runs (wait_timeout_untraced pid ms) t r ->
  spawned t = negb (setup_failed t) /\
  outstanding t = no_resources /\
  (r = 0 \/ r = -1 \/ reply_to (is_load_of f_return_val) t = Some r) /\
  (setup_failed t = true ->
     r = -1 /\ errno_after e0 t = Some e0 /\ issued is_set_errno t = false /\
     issued is_timedwait t = false) /\
  (spawned t = true ->
     issued is_join t = true /\
     after is_unlock (calls t) =
       (if timed_out t
        then [Pthread_cancel; Pthread_join; Set_errno ETIMEDOUT;
              Pthread_cond_destroy; Pthread_condattr_destroy; Pthread_mutex_destroy]
        else [Pthread_join; Load f_return_val;
              Pthread_cond_destroy; Pthread_condattr_destroy; Pthread_mutex_destroy]) /\
     after is_join (calls t) =
       [if timed_out t then Set_errno ETIMEDOUT else Load f_return_val;
        Pthread_cond_destroy; Pthread_condattr_destroy; Pthread_mutex_destroy] /\
     if timed_out t
     then r = -1 /\ errno_after e0 t = Some ETIMEDOUT
     else reply_to (is_load_of f_return_val) t = Some r /\
          issued is_cancel t = false /\ issued is_set_errno t = false /\
          (issued is_timedwait t = true -> errno_after e0 t = Some e0)).
Proof.
  intros H. all_runs H; booleans; settle.
  all: repeat split; auto; try discriminate.
Qed.

(** On the overflow path the thread exists before the overflow is found,
    nothing is waited for, and the thread is joined. *)
Lemma racer_overflow (pid ms : Z) (t : list event) (r : Z) (ts : timespec) :
  runs (wait_timeout_untraced pid ms) t r ->
  clock_read t = Some ts -> internal_4_deadline ts ms = None ->
  calls t =
    [Pthread_mutex_init; Pthread_condattr_init; Store f_pid pid;
     Store f_return_val (-1); Pthread_condattr_setclock CLOCK_MONOTONIC;
     Pthread_cond_init; Pthread_create fn_wait_for_process;
     Pthread_mutex_lock; Clock_gettime CLOCK_MONOTONIC;
     Pthread_mutex_unlock; Pthread_join; Load f_return_val;
     Pthread_cond_destroy; Pthread_condattr_destroy; Pthread_mutex_destroy] /\
  spawned t = true /\ timed_out t = false.
Proof.
  intros H Hclk Hd. all_runs H; booleans; revert Hclk; settle;
    try discriminate; intros Hclk; try (injection Hclk as ->; congruence).
  auto.
Qed.

(** What the calling thread has stored and signalled, at any point. *)
Lemma racer_prefix (pid ms : Z) (t : list event) (p' : prog Z) :
  steps (wait_timeout_untraced pid ms) t p' ->
  (stored f_return_val t = [] \/ stored f_return_val t = [-1]) /\
  (spawned t = true -> stored f_return_val t = [-1]) /\
  issued is_signal t = false /\ issued is_waitid t = false.
Proof.
  intros H. all_steps H; clear H; booleans; settle; repeat split; auto; discriminate.
Qed.

(** What the spawned thread has done, at any point. *)
Lemma waiter_prefix (t : list event) (p' : prog unit) :
  steps wait_for_process t p' ->
  (count (is_store_to f_return_val) t <= 1)%nat /\
  (count is_signal t <= 1)%nat /\
  (count is_waitid t <= 1)%nat /\
  guarded is_signal t = true /\
  (count (is_store_to f_return_val) t = 1%nat ->
     guarded (is_store_to f_return_val) t = false) /\
  (forall v, In v (stored f_return_val t) -> v = 0 \/ v = -1) /\
  (forall v, recorded t = Some v ->
     exists x, reply_to is_waitid t = Some x /\ v = if x =? -1 then -1 else 0) /\
  (forall c a, In (c, a) t -> is_waitid c = true ->
     exists a0, In (Load f_pid, a0) t /\
                c = Waitid P_PID (rc a0) (Z.lor WNOWAIT WEXITED)).
Proof.
  intros H. all_steps H; clear H; booleans; unfold count; settle.
  all: repeat split; auto; try discriminate; try lia.
  all: try (intros v Hv; injection Hv as <-; eexists; split; [reflexivity|];
            cbn;
            repeat match goal with
                   | H : (_ =? _) = false |- _ => rewrite H
                   end; reflexivity).
  all: intros c a Hin Hw;
       repeat (destruct Hin as [Hin|Hin]; [injection Hin as <- <-; try discriminate Hw|]);
       try contradiction;
       eexists; (split; [left; reflexivity | reflexivity]).
Qed.

(** The spawned thread, run to its end. *)
Lemma waiter_exits (t : list event) (u : unit) :
  runs wait_for_process t u ->
  calls t = [Load f_pid;
             Waitid P_PID (match reply_to (is_load_of f_pid) t with
                           | Some q => q | None => 0 end)
               (Z.lor WNOWAIT WEXITED);
             Store f_return_val
               (match reply_to is_waitid t with
                | Some x => if x =? -1 then -1 else 0 | None => 0 end);
             Pthread_mutex_lock; Pthread_cond_signal; Pthread_mutex_unlock] /\
  exists x, reply_to is_waitid t = Some x /\
            recorded t = Some (if x =? -1 then -1 else 0).
Proof.
  intros H. all_runs H; booleans; settle; (split; [reflexivity|]);
    eexists; (split; [reflexivity|]);
    repeat match goal with
           | H : (_ =? _) = false |- _ => rewrite H
           end; reflexivity.
Qed.

End Exits.

(** ** One thread on its own: the mutex, the wait and the teardown *)

Section Discipline.
Context {P : Platform} {OK : PlatformOK P}.

(** Where the calling thread can be: the mutex, the wait and the
    teardown. *)
Lemma racer_discipline (pid ms : Z) (t : list event) (p' : prog Z) :
  steps (wait_timeout_untraced pid ms) t p' ->
  match p' with
  | Call Pthread_mutex_lock _ => holds_mutex t = false
  | Call Pthread_mutex_unlock _ => holds_mutex t = true
  | Call (Pthread_cond_timedwait d) _ =>
      holds_mutex t = true /\ issued is_timedwait t = false /\
      exists ts, clock_read t = Some ts /\ internal_4_deadline ts ms = Some d
  | Call Pthread_cancel _ => timed_out t = true /\ holds_mutex t = false
  | Call Pthread_join _ => holds_mutex t = false /\ spawned t = true
  | Call (Load _) _ => timed_out t = false
  | Call Pthread_cond_destroy _ =>
      holds_mutex t = false /\ (spawned t = true -> issued is_join t = true)
  | Call Pthread_mutex_destroy _ =>
      holds_mutex t = false /\ (spawned t = true -> issued is_join t = true)
  | _ => True
  end.
Proof.
  intros H. all_steps H; subst p'; booleans; settle; auto; try (repeat split; eauto; discriminate).
Qed.


(** Where the spawned thread can be: the mutex, and the one point where a
    cancellation can reach it. *)
Lemma waiter_discipline (t : list event) (p' : prog unit) :
  steps wait_for_process t p' ->
  match p' with
  | Ret _ => holds_mutex t = false
  | Call c _ =>
      (is_lock c = true -> holds_mutex t = false) /\
      (is_unlock c = true -> holds_mutex t = true) /\
      (is_cancellation_point c = true ->
         calls t = [Load f_pid] /\ holds_mutex t = false)
  end.
Proof.
  intros H. all_steps H; subst p'; booleans; settle;
    repeat split; intros; auto; discriminate.
Qed.

(** What the calling thread has done, at any point: a cancellation was
    requested only after a timed-out wait, a timed-out wait is never
    followed by a load of [return_val], there is one wait at most, on the
    deadline computed from the clock reading, and [errno] is assigned
    [ETIMEDOUT] or nothing. *)
Lemma racer_history (pid ms : Z) (t : list event) (p' : prog Z) :
  steps (wait_timeout_untraced pid ms) t p' ->
  (issued is_cancel t = true -> timed_out t = true) /\
  (timed_out t = true -> issued (is_load_of f_return_val) t = false) /\
  (forall d a, In (Pthread_cond_timedwait d, a) t ->
     exists ts, clock_read t = Some ts /\ internal_4_deadline ts ms = Some d) /\
  (errno_writes t = [] \/ errno_writes t = [ETIMEDOUT]).
Proof.
  intros H. all_steps H; clear H; booleans; unfold errno_writes; settle.
  all: repeat split; auto; try discriminate.
  all: intros d a Hin;
       repeat (destruct Hin as [Hin|Hin]; [try discriminate Hin|]);
       try contradiction;
       injection Hin as <- _; eauto.
Qed.


End Discipline.

(** ** Executions of the two threads *)

Section Executions.
Context {P : Platform}.

Lemma grun_app (a1 a2 : list action) (s : config) :
  grun (a1 ++ a2) s =
  match grun a1 s with
  | Some s' => grun a2 s'
  | None => None
  end.
Proof.
  revert s. induction a1 as [|a a1 IH]; intros s; cbn; [reflexivity|].
  destruct (gstep a s); [apply IH | reflexivity].
Qed.

Lemma grun_final (acts : list action) (s : config) :
  completes acts s = true -> grun acts s = Some (final acts s).
Proof.
  unfold completes, final. destruct (grun acts s); [reflexivity | discriminate].
Qed.

Lemma reachable_refl (s : config) : reachable s s.
Proof. exists []. reflexivity. Qed.

Lemma reachable_step (s0 s s' : config) (a : action) :
  reachable s0 s -> gstep a s = Some s' -> reachable s0 s'.
Proof.
  intros [acts H] Hs. exists (acts ++ [a]).
  rewrite grun_app, H. cbn. rewrite Hs. reflexivity.
Qed.

Lemma reachable_trans (s0 s s' : config) :
  reachable s0 s -> reachable s s' -> reachable s0 s'.
Proof.
  intros [a1 H1] [a2 H2]. exists (a1 ++ a2). rewrite grun_app, H1. exact H2.
Qed.

(** Induction over the states an execution goes through. *)
Lemma reachable_ind (s0 : config) (Q : config -> Prop) :
  Q s0 ->
  (forall s a s', reachable s0 s -> Q s -> gstep a s = Some s' -> Q s') ->
  forall s, reachable s0 s -> Q s.
Proof.
  intros H0 Hstep s [acts H]. revert s H.
  induction acts as [|a acts IH] using rev_ind; intros s H.
  - cbn in H. injection H as <-. exact H0.
  - rewrite grun_app in H. destruct (grun acts s0) as [s1|] eqn:H1; [|discriminate].
    cbn in H. destruct (gstep a s1) as [s2|] eqn:Hs; [|discriminate].
    injection H as <-.
    apply (Hstep s1 a s2); [exists acts; exact H1 | apply IH; reflexivity | exact Hs].
Qed.

Lemma gstep_shape (a : action) (s s' : config) :
  gstep a s = Some s' -> step_shape a s s'.
Proof.
  intros H. destruct a as [[|] env|d|q|]; cbn in H.
  - destruct (main s) as [|c k] eqn:Hm; [discriminate|].
    destruct (do_call Racer c env s) as [|s1|r s1] eqn:Hc; [discriminate| |].
    + injection H as <-.
      apply (shape_park _ _ _ Racer env c); [reflexivity | exact Hc | exists k; exact Hm].
    + injection H as <-.
      apply (shape_return _ _ _ Racer env c r s1);
        [reflexivity | exact Hc | exists k; split; [exact Hm | reflexivity]].
  - destruct (worker s) as [|[u|c k]|] eqn:Hw; try discriminate.
    + injection H as <-. apply (shape_exit _ _ _ env u); auto.
    + destruct (do_call Waiter c env s) as [|s1|r s1] eqn:Hc; [discriminate| |].
      * injection H as <-.
        apply (shape_park _ _ _ Waiter env c); [reflexivity | exact Hc | exists k; exact Hw].
      * injection H as <-.
        apply (shape_return _ _ _ Waiter env c r s1);
          [reflexivity | exact Hc | exists k; split; [exact Hw | reflexivity]].
  - destruct (_ && _); [|discriminate]. injection H as <-.
    apply (shape_tick _ _ _ d); auto.
  - destruct (procs s q) eqn:Hq; try discriminate. injection H as <-.
    apply (shape_child_exit _ _ _ q); auto.
  - destruct (worker s) as [|[u|c k]|] eqn:Hw; try discriminate.
    destruct (cancel_req s) eqn:Hc; [|discriminate].
    destruct (is_cancellation_point c) eqn:Hp; [|discriminate].
    injection H as <-. apply (shape_cancel _ _ _ c k); auto.
Qed.

End Executions.

(** The cases of a step, named. *)
Ltac shapes Hstep :=
  destruct (gstep_shape _ _ _ Hstep)
    as [ [|] env c r s1 -> Hc [k [Hm ->]]
       | [|] env c -> Hc [k Hm]
       | env u -> Hw ->
       | d -> ->
       | q -> Hq ->
       | c k -> Hw Hcr Hcp -> ].

(** ** Invariants of the executions of [wait_timeout_untraced] *)

Section Invariants.
Context {P : Platform}.

#[local] Arguments wait_for_process {P} : simpl never.
#[local] Arguments spawned t : simpl never.
#[local] Arguments issued sel t : simpl never.
#[local] Arguments stored f t : simpl never.
#[local] Arguments recorded t : simpl never.
#[local] Arguments errno_after e0 t : simpl never.
#[local] Arguments timed_out {P} t : simpl never.
#[local] Arguments holds_mutex t : simpl never.
#[local] Arguments wait_timeout_untraced {P} pid timeout_ms : simpl never.

Lemma do_call_frame (t : tid) (c : call) (env : Z) (s s1 : config) (r : reply) :
  do_call t c env s = Return r s1 ->
  main s1 = main s /\ log s1 = log s /\ now s1 = now s.
Proof. intros H. destruct c; do_call_inv H; auto. Qed.

Lemma do_call_park (t : tid) (c : call) (env : Z) (s s1 : config) :
  do_call t c env s = Park s1 ->
  s1 = set_parked (Some t) (set_signalled false (set_owner None s)).
Proof.
  intros H. destruct c; cbn [do_call] in H;
  repeat match type of H with
  | context [match ?x with _ => _ end] => destruct x eqn:?
  end; try discriminate H.
  injection H as <-. reflexivity.
Qed.

Variables (pid ms clock0 : Z) (procs0 : Z -> proc_state) (errno0 : Z).

#[local] Abbreviation s0 := (init pid ms clock0 procs0 errno0).
#[local] Abbreviation prog0 := (wait_timeout_untraced pid ms).

(** The calls logged for the calling thread are a run of
    [wait_timeout_untraced] up to what it has left to do. *)
Lemma racer_log_run (s : config) :
  reachable s0 s -> steps prog0 (log_of Racer (log s)) (main s).
Proof.
  intros H. pattern s. revert s H. apply reachable_ind.
  - cbn. reflexivity.
  - intros s a s' Hr IH Hstep. shapes Hstep.
    + destruct (do_call_frame _ _ _ _ _ _ Hc) as (Hmain & Hlog & _).
      cbn. rewrite Hlog, log_of_snoc_same. apply steps_snoc. rewrite <- Hm. exact IH.
    + destruct (do_call_frame _ _ _ _ _ _ Hc) as (Hmain & Hlog & _).
      cbn. rewrite Hlog, log_of_snoc_other by reflexivity. rewrite Hmain. exact IH.
    + rewrite (do_call_park _ _ _ _ _ Hc). exact IH.
    + rewrite (do_call_park _ _ _ _ _ Hc). exact IH.
    + exact IH.
    + exact IH.
    + exact IH.
    + exact IH.
Qed.


(** The calls logged for the spawned thread are a run of
    [wait_for_process]: complete when it returned, stopped at a
    cancellation point when it was cancelled. *)
Lemma waiter_log_run (s : config) :
  reachable s0 s ->
  match worker s with
  | Unborn => log_of Waiter (log s) = []
  | Live p => steps wait_for_process (log_of Waiter (log s)) p
  | Dead false => runs wait_for_process (log_of Waiter (log s)) tt
  | Dead true =>
      cancel_req s = true /\
      exists c k, steps wait_for_process (log_of Waiter (log s)) (Call c k) /\
                  is_cancellation_point c = true
  end.
Proof.
  intros H. pattern s. revert s H. apply reachable_ind.
  - cbn. reflexivity.
  - intros s a s' Hr IH Hstep. shapes Hstep.
    + (* the calling thread returns from a call *)
      cbn [worker set_main add_log log].
      rewrite log_of_snoc_other by reflexivity.
      destruct c; do_call_inv Hc; cbn; try exact IH;
        match goal with H : worker s = _ |- _ => try rewrite H in * end;
        try exact IH.
      (* pthread_create *)
      rewrite IH. destruct start. reflexivity.
    + (* the spawned thread returns from a call *)
      cbn [worker set_worker add_log log].
      destruct (do_call_frame _ _ _ _ _ _ Hc) as (_ & Hlog & _).
      rewrite Hlog, log_of_snoc_same. apply steps_snoc.
      rewrite Hm in IH. exact IH.
    + rewrite (do_call_park _ _ _ _ _ Hc). exact IH.
    + rewrite (do_call_park _ _ _ _ _ Hc). exact IH.
    + cbn. rewrite Hw in IH. destruct u. exact IH.
    + exact IH.
    + exact IH.
    + cbn. rewrite Hw in IH. split; [exact Hcr|]. exists c, k. auto.
Qed.


(** What the program points say at a state. *)
Lemma racer_at (s : config) (c : call) (k : reply -> prog Z) :
  reachable s0 s -> main s = Call c k ->
  match c with
  | Store f v =>
      spawned (log_of Racer (log s)) = false /\
      issued (is_load_of f_return_val) (log_of Racer (log s)) = false
  | Pthread_create st =>
      st = fn_wait_for_process /\
      last (stored f_pid (log_of Racer (log s))) 0 = pid /\
      last (stored f_return_val (log_of Racer (log s))) 0 = -1
  | Waitid _ _ _ => False
  | Load f => f = f_return_val /\ issued is_join (log_of Racer (log s)) = true
  | Pthread_cond_signal => False
  | _ => True
  end.
Proof.
  intros Hr Hm. pose proof (racer_points _ _ _ _ (racer_log_run s Hr)) as H.
  rewrite Hm in H. exact H.
Qed.

Lemma waiter_at (s : config) (c : call) (k : reply -> prog unit) :
  reachable s0 s -> worker s = Live (Call c k) ->
  match c with
  | Store f v =>
      f = f_return_val /\ stored f_return_val (log_of Waiter (log s)) = [] /\
      (v = 0 \/ v = -1) /\ holds_mutex (log_of Waiter (log s)) = false
  | Waitid i q o =>
      i = P_PID /\ o = Z.lor WNOWAIT WEXITED /\
      exists a, log_of Waiter (log s) = [(Load f_pid, a)] /\ q = rc a
  | Load f => f = f_pid
  | Pthread_cond_signal =>
      holds_mutex (log_of Waiter (log s)) = true /\
      issued is_signal (log_of Waiter (log s)) = false
  | Pthread_create _ => False
  | Pthread_cond_timedwait _ => False
  | Pthread_join => False
  | Pthread_cancel => False
  | _ => True
  end.
Proof.
  intros Hr Hw. pose proof (waiter_log_run s Hr) as H.
  rewrite Hw in H. exact (waiter_points _ _ H).
Qed.

(** The life of the spawned thread, as the calls of the calling thread
    tell it. *)
Lemma lifecycle (s : config) :
  reachable s0 s ->
  spawned (log_of Racer (log s)) =
    match worker s with Unborn => false | _ => true end /\
  (cancel_req s = true -> issued is_cancel (log_of Racer (log s)) = true) /\
  joined s = issued is_join (log_of Racer (log s)) /\
  (joined s = true -> exists b, worker s = Dead b).
Proof.
  intros H. pattern s. revert s H. apply reachable_ind.
  - cbn. repeat split; discriminate.
  - intros s a s' Hr (I1 & I2 & I3 & I4) Hstep. shapes Hstep.
    + pose proof (racer_at s c k Hr Hm) as Hat.
      destruct c; try contradiction; do_call_inv Hc; cbn;
        rewrite log_of_snoc_same, spawned_snoc, !issued_snoc; cbn;
        rewrite ?orb_false_r, ?andb_false_r;
        try match goal with H : worker s = _ |- _ => rewrite H in * end;
        try match goal with H : joined s = _ |- _ => rewrite H in * end;
        try match goal with H : (_ =? 0) = _ |- _ => rewrite H end;
        rewrite ?orb_false_r, ?orb_true_r, ?andb_false_r;
        repeat split; auto; try discriminate; eauto.
      intros Hj. destruct (I4 Hj) as [b Hb]. discriminate.
    + pose proof (waiter_at s c k Hr Hm) as Hat.
      destruct c; try contradiction; do_call_inv Hc; cbn;
        rewrite log_of_snoc_other by reflexivity;
        rewrite Hm in *; repeat split; auto;
        intros Hj; destruct (I4 Hj) as [b Hb]; discriminate.
    + rewrite (do_call_park _ _ _ _ _ Hc). cbn. auto.
    + rewrite (do_call_park _ _ _ _ _ Hc). cbn. auto.
    + cbn. rewrite Hw in *. repeat split; eauto.
    + cbn. auto.
    + cbn. auto.
    + cbn. rewrite Hw in *. repeat split; eauto.
Qed.


Lemma recorded_snoc (t : list event) (e : event) :
  recorded (t ++ [e]) =
  match fst e with
  | Store f_return_val v => Some v
  | _ => recorded t
  end.
Proof.
  unfold recorded. rewrite stored_snoc.
  destruct e as [[] r]; cbn; rewrite ?app_nil_r; try reflexivity.
  destruct f; cbn; rewrite ?app_nil_r; try reflexivity.
  rewrite rev_app_distr. reflexivity.
Qed.

Lemma last_stored_snoc (f : field) (t : list event) (e : event) :
  last (stored f (t ++ [e])) 0 =
  match fst e with
  | Store g v => if field_eqb g f then v else last (stored f t) 0
  | _ => last (stored f t) 0
  end.
Proof.
  rewrite stored_snoc.
  destruct e as [[] r]; cbn; rewrite ?app_nil_r; try reflexivity.
  destruct (field_eqb f0 f); [apply last_last | rewrite app_nil_r; reflexivity].
Qed.

(** The shared [proc_info_t]: before the thread exists it holds what the
    calling thread stored; from then on [pid] is fixed and [return_val]
    is -1 until the spawned thread records its outcome. *)
Lemma memory (s : config) :
  reachable s0 s ->
  match worker s with
  | Unborn => forall f, mem s f = last (stored f (log_of Racer (log s))) 0
  | _ =>
      mem s f_pid = pid /\
      mem s f_return_val =
        match recorded (log_of Waiter (log s)) with
        | Some v => v
        | None => -1
        end
  end.
Proof.
  intros H. pattern s. revert s H. apply reachable_ind.
  - cbn. reflexivity.
  - intros s a s' Hr IH Hstep. shapes Hstep.
    + pose proof (racer_at s c k Hr Hm) as Hat.
      destruct (lifecycle s Hr) as (L1 & _).
      pose proof (waiter_log_run s Hr) as Hwl.
      destruct c; try contradiction; do_call_inv Hc; cbn;
        rewrite ?log_of_snoc_same, ?log_of_snoc_other by reflexivity;
        try (match goal with H : worker s = _ |- _ => rewrite H in * end);
        try (destruct (worker s) eqn:Hws);
        first [ exact IH
              | congruence
              | intros f0; rewrite last_stored_snoc; cbn; apply IH
              | idtac ].
      * (* pthread_create *)
        rewrite Hwl. cbn. destruct Hat as (_ & Hp & Hv). rewrite !IH. auto.
      * (* a store *)
        intros g. rewrite last_stored_snoc. cbn. unfold upd_field.
        destruct f, g; cbn; auto.
      * destruct Hat as [Hsp _]. rewrite Hsp in L1. discriminate.
      * destruct Hat as [Hsp _]. rewrite Hsp in L1. discriminate.
    + pose proof (waiter_at s c k Hr Hm) as Hat.
      rewrite Hm in IH.
      destruct c; try contradiction; do_call_inv Hc; cbn;
        rewrite ?log_of_snoc_same, ?log_of_snoc_other by reflexivity;
        rewrite recorded_snoc; cbn; try exact IH.
      (* the store *)
      destruct Hat as (-> & _ & _). cbn. split; [apply IH | reflexivity].
    + rewrite (do_call_park _ _ _ _ _ Hc). exact IH.
    + rewrite (do_call_park _ _ _ _ _ Hc). exact IH.
    + cbn. rewrite Hw in IH. exact IH.
    + exact IH.
    + exact IH.
    + cbn. rewrite Hw in IH. exact IH.
Qed.


Lemma issued_In (sel : call -> bool) (t : list event) (c : call) (a : reply) :
  In (c, a) t -> sel c = true -> issued sel t = true.
Proof.
  intros Hin Hsel. unfold issued. apply existsb_exists.
  exists (c, a). auto.
Qed.

(** What the loads returned: the spawned thread read the [pid] it was
    given; the calling thread read [return_val] once the spawned thread
    was dead, and the field has not changed since. *)
Lemma loads_seen (s : config) :
  reachable s0 s ->
  (forall a, In (Load f_pid, a) (log_of Waiter (log s)) -> rc a = pid) /\
  (forall a, In (Load f_return_val, a) (log_of Racer (log s)) ->
     rc a = mem s f_return_val /\ exists b, worker s = Dead b).
Proof.
  intros H. pattern s. revert s H. apply reachable_ind.
  - cbn. split; intros a [].
  - intros s a s' Hr [IH1 IH2] Hstep. shapes Hstep.
    + pose proof (racer_at s c k Hr Hm) as Hat.
      destruct (lifecycle s Hr) as (L1 & _ & L3 & L4).
      destruct c; try contradiction; do_call_inv Hc; cbn;
        rewrite ?log_of_snoc_same, ?log_of_snoc_other by reflexivity;
        (split; [exact IH1|]); intros a Ha; apply In_snoc in Ha;
        destruct Ha as [Ha|Ha]; try discriminate Ha;
        try (apply IH2; exact Ha);
        try (destruct (IH2 a Ha) as [? [b Hb]];
             first [ discriminate Hb
                   | split; [assumption | exists b; congruence] ]).
      * (* the load of return_val *)
        destruct Hat as [-> Hj]. injection Ha as ->. cbn.
        split; [reflexivity|]. apply L4. rewrite L3. exact Hj.
      * (* a store: nothing has been loaded yet *)
        destruct Hat as [_ Hl].
        rewrite (issued_In _ _ _ _ Ha eq_refl) in Hl. discriminate.
    + pose proof (waiter_at s c k Hr Hm) as Hat.
      pose proof (memory s Hr) as Hmem. rewrite Hm in Hmem.
      assert (Hno : forall a, ~ In (Load f_return_val, a) (log_of Racer (log s))).
      { intros a Ha. destruct (IH2 a Ha) as [_ [b Hb]]. congruence. }
      destruct c; try contradiction; do_call_inv Hc; cbn;
        rewrite ?log_of_snoc_same, ?log_of_snoc_other by reflexivity;
        (split; [|intros a Ha; destruct (Hno a Ha)]);
        intros a Ha; apply In_snoc in Ha;
        destruct Ha as [Ha|Ha]; try discriminate Ha;
        try (apply IH1; exact Ha).
      (* the load of pid *)
      injection Ha as _ ->. cbn. rewrite Hat. apply Hmem.
    + rewrite (do_call_park _ _ _ _ _ Hc). cbn. auto.
    + rewrite (do_call_park _ _ _ _ _ Hc). cbn. auto.
    + cbn. split; [exact IH1|]. intros a Ha.
      destruct (IH2 a Ha) as [? [b Hb]]. congruence.
    + cbn. auto.
    + cbn. auto.
    + cbn. split; [exact IH1|]. intros a Ha.
      destruct (IH2 a Ha) as [? [b Hb]]. congruence.
Qed.


(** [errno] of a thread is what its own calls made it. *)
Lemma errno_tracks (s : config) :
  reachable s0 s ->
  forall t v, errno_after errno0 (log_of t (log s)) = Some v -> errno s t = v.
Proof.
  intros H. pattern s. revert s H. apply reachable_ind.
  - cbn. intros t v Hv. injection Hv as <-. reflexivity.
  - intros s a s' Hr IH Hstep. shapes Hstep.
    + intros [|] v; cbn;
        rewrite ?log_of_snoc_same, ?log_of_snoc_other by reflexivity.
      * rewrite errno_after_snoc.
        destruct c; do_call_inv Hc; cbn; unfold upd_tid; cbn;
          try apply IH; try discriminate; try congruence.
      * destruct c; do_call_inv Hc; cbn; unfold upd_tid; cbn; apply IH.
    + intros [|] v; cbn;
        rewrite ?log_of_snoc_same, ?log_of_snoc_other by reflexivity.
      * destruct c; do_call_inv Hc; cbn; unfold upd_tid; cbn; apply IH.
      * rewrite errno_after_snoc.
        destruct c; do_call_inv Hc; cbn; unfold upd_tid; cbn;
          try apply IH; try discriminate; try congruence.
    + rewrite (do_call_park _ _ _ _ _ Hc). exact IH.
    + rewrite (do_call_park _ _ _ _ _ Hc). exact IH.
    + exact IH.
    + exact IH.
    + exact IH.
    + exact IH.
Qed.


Context {OK : PlatformOK P}.

(** A process only ever goes from running to terminated: no call of
    either thread collects it. *)
Lemma procs_step (s s' : config) (a : action) :
  reachable s0 s -> gstep a s = Some s' ->
  forall x, procs s' x = procs s x \/ (procs s x = Alive /\ procs s' x = Zombie).
Proof.
  intros Hr Hstep x. shapes Hstep.
  - pose proof (racer_at s c k Hr Hm) as Hat.
    destruct c; try contradiction; do_call_inv Hc; cbn; auto.
  - pose proof (waiter_at s c k Hr Hm) as Hat.
    destruct c; try contradiction; do_call_inv Hc; cbn; auto.
    (* waitid without WNOWAIT would collect *)
    destruct Hat as (_ & -> & _).
    match goal with H : (Z.land _ WNOWAIT =? 0) = true |- _ =>
      apply Z.eqb_eq in H; destruct (WNOWAIT_set H) end.
  - rewrite (do_call_park _ _ _ _ _ Hc). cbn. auto.
  - rewrite (do_call_park _ _ _ _ _ Hc). cbn. auto.
  - cbn. auto.
  - cbn. auto.
  - cbn. unfold upd_proc. destruct (Z.eqb_spec x q); [subst|]; auto.
  - cbn. auto.
Qed.

Lemma procs_monotone (s s' : config) :
  reachable s0 s -> reachable s s' ->
  forall q, procs s' q = procs s q \/ (procs s q = Alive /\ procs s' q = Zombie).
Proof.
  intros Hr H. pattern s'. revert s' H. apply reachable_ind.
  - auto.
  - intros s1 a s2 Hr1 IH Hstep q.
    pose proof (procs_step s1 s2 a (reachable_trans _ _ _ Hr Hr1) Hstep q) as H.
    destruct (IH q) as [IH'|[IH1 IH2]], H as [H|[H1 H2]]; rewrite ?H, ?IH' in *; auto.
Qed.

(** A [waitid] of the spawned thread that returned 0 saw a terminated
    process, and that process is still there to be collected. *)
Lemma waitid_seen (s : config) :
  reachable s0 s ->
  forall i q o a, In (Waitid i q o, a) (log_of Waiter (log s)) ->
    (rc a = 0 \/ rc a = -1) /\ (rc a = 0 -> procs s q = Zombie).
Proof.
  intros H. pattern s. revert s H. apply reachable_ind.
  - cbn. intros i q o a [].
  - intros s a s' Hr IH Hstep.
    assert (Hold : forall i q o a0, In (Waitid i q o, a0) (log_of Waiter (log s)) ->
              (rc a0 = 0 \/ rc a0 = -1) /\ (rc a0 = 0 -> procs s' q = Zombie)).
    { intros i q o a0 Hin. destruct (IH i q o a0 Hin) as [H1 H2].
      split; [exact H1|]. intros H0.
      destruct (procs_step s s' a Hr Hstep q) as [E|[E _]];
        rewrite ?E; auto. rewrite (H2 H0) in E. discriminate. }
    clear IH. shapes Hstep.
    + destruct (do_call_frame _ _ _ _ _ _ Hc) as (_ & Hlog & _).
      cbn. rewrite Hlog, log_of_snoc_other by reflexivity. exact Hold.
    + destruct (do_call_frame _ _ _ _ _ _ Hc) as (_ & Hlog & _).
      cbn. rewrite Hlog, log_of_snoc_same.
      intros i q o a0 Hin. apply In_snoc in Hin. destruct Hin as [Hin|Hin].
      * apply (Hold i q o a0 Hin).
      * injection Hin as <- <-. clear Hold.
        pose proof (waiter_at s _ k Hr Hm) as Hat.
        destruct Hat as (_ & -> & _).
        do_call_inv Hc; cbn; split; auto; try discriminate.
        match goal with H : (Z.land _ WNOWAIT =? 0) = true |- _ =>
          apply Z.eqb_eq in H; destruct (WNOWAIT_set H) end.
    + rewrite (do_call_park _ _ _ _ _ Hc) in *. exact Hold.
    + rewrite (do_call_park _ _ _ _ _ Hc) in *. exact Hold.
    + exact Hold.
    + exact Hold.
    + exact Hold.
    + exact Hold.
Qed.

(** The spawned thread owns the mutex exactly between its lock and its
    unlock. *)
Lemma owner_tracks (s : config) :
  reachable s0 s ->
  (owner s = Some Waiter <-> holds_mutex (log_of Waiter (log s)) = true).
Proof.
  intros H. pattern s. revert s H. apply reachable_ind.
  - cbn. split; discriminate.
  - intros s a s' Hr IH Hstep. shapes Hstep.
    + cbn. rewrite log_of_snoc_other by reflexivity.
      destruct c; do_call_inv Hc; cbn; try exact IH;
        unfold owner_is in *;
        destruct (owner s) as [[|]|]; try discriminate;
        destruct (holds_mutex (log_of Waiter (log s)));
        intuition congruence.
    + pose proof (waiter_at s c k Hr Hm) as Hat.
      cbn. destruct (do_call_frame _ _ _ _ _ _ Hc) as (_ & Hlog & _).
      rewrite Hlog, log_of_snoc_same, holds_mutex_snoc.
      destruct c; try contradiction; do_call_inv Hc; cbn; try exact IH;
        unfold owner_is in *;
        destruct (owner s) as [[|]|]; try discriminate;
        destruct (holds_mutex (log_of Waiter (log s)));
        intuition congruence.
    + rewrite (do_call_park _ _ _ _ _ Hc). cbn.
      assert (Ho : owner_is Racer s = true).
      { destruct c; cbn [do_call] in Hc;
          repeat match type of Hc with
                 | context [match ?x with _ => _ end] => destruct x eqn:?
                 end; try discriminate Hc; reflexivity. }
      unfold owner_is in Ho. destruct (owner s) as [[|]|]; try discriminate.
      destruct (holds_mutex (log_of Waiter (log s))); intuition congruence.
    + pose proof (waiter_at s c k Hr Hm) as Hat.
      destruct c; try contradiction; cbn [do_call] in Hc;
        repeat match type of Hc with
               | context [match ?x with _ => _ end] => destruct x eqn:?
               end; discriminate Hc.
    + exact IH.
    + exact IH.
    + exact IH.
    + exact IH.
Qed.

End Invariants.

(** ** Invariants of the mutex, the condition variable and the clock *)

Section Protocol.
Context {P : Platform} {OK : PlatformOK P}.

#[local] Arguments wait_for_process {P} : simpl never.
#[local] Arguments wait_timeout_untraced {P} pid timeout_ms : simpl never.
#[local] Arguments spawned t : simpl never.
#[local] Arguments issued sel t : simpl never.
#[local] Arguments stored f t : simpl never.
#[local] Arguments recorded t : simpl never.
#[local] Arguments errno_after e0 t : simpl never.
#[local] Arguments timed_out {P} t : simpl never.
#[local] Arguments holds_mutex t : simpl never.
#[local] Arguments clock_read t : simpl never.

Variables (pid ms clock0 : Z) (procs0 : Z -> proc_state) (errno0 : Z).

#[local] Abbreviation s0 := (init pid ms clock0 procs0 errno0).

Lemma racer_here (s : config) (c : call) (k : reply -> prog Z) :
  reachable s0 s -> main s = Call c k ->
  match c with
  | Pthread_mutex_lock => holds_mutex (log_of Racer (log s)) = false
  | Pthread_mutex_unlock => holds_mutex (log_of Racer (log s)) = true
  | Pthread_cond_timedwait d =>
      holds_mutex (log_of Racer (log s)) = true /\
      issued is_timedwait (log_of Racer (log s)) = false /\
      exists ts, clock_read (log_of Racer (log s)) = Some ts /\
                 internal_4_deadline ts ms = Some d
  | Pthread_cancel =>
      timed_out (log_of Racer (log s)) = true /\
      holds_mutex (log_of Racer (log s)) = false
  | Pthread_join =>
      holds_mutex (log_of Racer (log s)) = false /\
      spawned (log_of Racer (log s)) = true
  | Load _ => timed_out (log_of Racer (log s)) = false
  | Pthread_cond_destroy =>
      holds_mutex (log_of Racer (log s)) = false /\
      (spawned (log_of Racer (log s)) = true ->
       issued is_join (log_of Racer (log s)) = true)
  | Pthread_mutex_destroy =>
      holds_mutex (log_of Racer (log s)) = false /\
      (spawned (log_of Racer (log s)) = true ->
       issued is_join (log_of Racer (log s)) = true)
  | _ => True
  end.
Proof.
  intros Hr Hm.
  pose proof (racer_discipline _ _ _ _ (racer_log_run pid ms clock0 procs0 errno0 s Hr)) as H.
  rewrite Hm in H. exact H.
Qed.

(** The calling thread owns the mutex exactly between a lock and the
    next unlock, except while it is blocked on the condition variable;
    only the calling thread is ever blocked there, and only inside
    [pthread_cond_timedwait]. *)
Lemma racer_owner (s : config) :
  reachable s0 s ->
  (parked s = None \/ parked s = Some Racer) /\
  (owner s = Some Racer <->
   holds_mutex (log_of Racer (log s)) = true /\ parked s = None) /\
  (parked s = Some Racer ->
   exists d k, main s = Call (Pthread_cond_timedwait d) k).
Proof.
  intros H. pattern s. revert s H. apply reachable_ind.
  - cbn. split; [auto|]. split; [|discriminate]. split; [discriminate|].
    intros [H _]. discriminate.
  - intros s a s' Hr (I1 & I2 & I3) Hstep. shapes Hstep.
    + pose proof (racer_at pid ms clock0 procs0 errno0 s c k Hr Hm) as Hat.
      pose proof (racer_here s c k Hr Hm) as Hh.
      assert (Hp : (forall d0, c <> Pthread_cond_timedwait d0) -> parked s = None).
      { intros Hne. destruct I1 as [I1|I1]; [exact I1|].
        destruct (I3 I1) as (d & k' & Hm'). rewrite Hm in Hm'.
        injection Hm' as Hc' _. destruct (Hne d Hc'). }
      cbn. rewrite log_of_snoc_same, holds_mutex_snoc.
      destruct c; try contradiction; do_call_inv Hc; cbn;
        try (specialize (Hp ltac:(intros; discriminate)));
        unfold owner_is in *;
        repeat match goal with
               | H : parked s = _ |- _ => rewrite H in *
               | H : owner s = _ |- _ => rewrite H in *
               end;
        try solve [ intuition (try discriminate; try congruence; eauto) ].
      all: destruct (owner s) as [[|]|]; cbn in *;
        intuition (try discriminate; try congruence; eauto).
    + pose proof (waiter_at pid ms clock0 procs0 errno0 s c k Hr Hm) as Hat.
      cbn. destruct (do_call_frame _ _ _ _ _ _ Hc) as (Hmain & Hlog & _).
      rewrite Hlog, log_of_snoc_other by reflexivity.
      destruct c; try contradiction; do_call_inv Hc; cbn;
        unfold owner_is in *;
        repeat match goal with
               | H : parked s = _ |- _ => rewrite H in *
               | H : owner s = _ |- _ => rewrite H in *
               end;
        try solve [ intuition (try discriminate; try congruence; eauto) ].
      all: destruct (owner s) as [[|]|]; cbn in *;
        intuition (try discriminate; try congruence; eauto).
    + rewrite (do_call_park _ _ _ _ _ Hc). cbn.
      split; [auto|]. split.
      * split; [discriminate|]. intros [_ H]. discriminate.
      * intros _.
        destruct c; cbn [do_call] in Hc;
          repeat match type of Hc with
                 | context [match ?x with _ => _ end] => destruct x eqn:?
                 end; try discriminate Hc. eauto.
    + pose proof (waiter_at pid ms clock0 procs0 errno0 s c k Hr Hm) as Hat.
      destruct c; try contradiction; cbn [do_call] in Hc;
        repeat match type of Hc with
               | context [match ?x with _ => _ end] => destruct x eqn:?
               end; discriminate Hc.
    + cbn. auto.
    + cbn. auto.
    + cbn. auto.
    + cbn. auto.
Qed.


Lemma waiter_here (s : config) :
  reachable s0 s ->
  match worker s with
  | Unborn => log_of Waiter (log s) = []
  | Live (Ret _) | Dead false => holds_mutex (log_of Waiter (log s)) = false
  | Live (Call c _) =>
      (is_lock c = true -> holds_mutex (log_of Waiter (log s)) = false) /\
      (is_unlock c = true -> holds_mutex (log_of Waiter (log s)) = true)
  | Dead true =>
      calls (log_of Waiter (log s)) = [Load f_pid] /\
      holds_mutex (log_of Waiter (log s)) = false
  end.
Proof.
  intros Hr. pose proof (waiter_log_run pid ms clock0 procs0 errno0 s Hr) as H.
  destruct (worker s) as [|p|[|]].
  - exact H.
  - pose proof (waiter_discipline _ _ H) as Hd. destruct p; [exact Hd|].
    split; apply Hd.
  - destruct H as (_ & c & k & Hs & Hc).
    pose proof (waiter_discipline _ _ Hs) as Hd. cbn in Hd. apply Hd, Hc.
  - exact (waiter_discipline _ _ H).
Qed.

(** No unlock ever fails: each is issued by the thread that holds the
    mutex. *)
Lemma unlocks_succeed (s : config) :
  reachable s0 s ->
  forall t a, In (Pthread_mutex_unlock, a) (log_of t (log s)) -> rc a = 0.
Proof.
  intros H. pattern s. revert s H. apply reachable_ind.
  - cbn. intros [|] a [].
  - intros s a s' Hr IH Hstep. shapes Hstep.
    + pose proof (racer_here s c k Hr Hm) as Hh.
      destruct (racer_owner s Hr) as (I1 & I2 & I3).
      destruct (do_call_frame _ _ _ _ _ _ Hc) as (_ & Hlog & _).
      intros [|] a0; cbn; rewrite Hlog;
        rewrite ?log_of_snoc_same, ?log_of_snoc_other by reflexivity;
        [|apply IH].
      intros Hin. apply In_snoc in Hin. destruct Hin as [Hin|Hin]; [exact (IH _ _ Hin)|].
      injection Hin as <- <-.
      assert (Hp : parked s = None).
      { destruct I1 as [I1|I1]; [exact I1|].
        destruct (I3 I1) as (d & k' & Hm'). rewrite Hm in Hm'. discriminate. }
      assert (Ho : owner s = Some Racer) by (apply I2; auto).
      cbn in Hc. unfold owner_is in Hc. rewrite Ho in Hc. cbn in Hc.
      injection Hc as <- _. reflexivity.
    + pose proof (waiter_here s Hr) as Hh. rewrite Hm in Hh.
      pose proof (owner_tracks pid ms clock0 procs0 errno0 s Hr) as Hown.
      destruct (do_call_frame _ _ _ _ _ _ Hc) as (_ & Hlog & _).
      intros [|] a0; cbn; rewrite Hlog;
        rewrite ?log_of_snoc_same, ?log_of_snoc_other by reflexivity;
        [apply IH|].
      intros Hin. apply In_snoc in Hin. destruct Hin as [Hin|Hin]; [exact (IH _ _ Hin)|].
      injection Hin as <- <-.
      assert (Ho : owner s = Some Waiter) by (apply Hown, Hh; reflexivity).
      cbn in Hc. unfold owner_is in Hc. rewrite Ho in Hc. cbn in Hc.
      injection Hc as <- _. reflexivity.
    + rewrite (do_call_park _ _ _ _ _ Hc). exact IH.
    + rewrite (do_call_park _ _ _ _ _ Hc). exact IH.
    + exact IH.
    + exact IH.
    + exact IH.
    + exact IH.
Qed.

(** The clock only moves forward; what [clock_gettime] delivered was the
    clock at some moment of the call; and a wait that returned
    [ETIMEDOUT] did so with its deadline behind. *)
Lemma clock_seen (s : config) :
  reachable s0 s ->
  clock0 <= now s /\
  (clock0 / NSEC_PER_SEC <= get_max_time_t -> now s / NSEC_PER_SEC <= get_max_time_t) /\
  (forall clk a, In (Clock_gettime clk, a) (log_of Racer (log s)) -> rc a = 0 ->
     exists n, clock0 <= n <= now s /\ out_ts a = timespec_of n) /\
  (forall d a, In (Pthread_cond_timedwait d, a) (log_of Racer (log s)) ->
     rc a = ETIMEDOUT -> ts_nanos d <= now s).
Proof.
  intros H. pattern s. revert s H. apply reachable_ind.
  - cbn. split; [lia|]. split; [auto|]. split; intros ? ? [].
  - intros s a s' Hr (I1 & I2 & I3 & I4) Hstep.
    assert (Hkeep : forall m, now s <= m ->
              (forall clk a, In (Clock_gettime clk, a) (log_of Racer (log s)) -> rc a = 0 ->
                 exists n, clock0 <= n <= m /\ out_ts a = timespec_of n) /\
              (forall d a, In (Pthread_cond_timedwait d, a) (log_of Racer (log s)) ->
                 rc a = ETIMEDOUT -> ts_nanos d <= m)).
    { intros m Hle. split.
      - intros clk a0 Hin H0. destruct (I3 clk a0 Hin H0) as (n & Hn & E).
        exists n. split; [lia | exact E].
      - intros d a0 Hin H0. pose proof (I4 d a0 Hin H0). lia. }
    shapes Hstep.
    + destruct (do_call_frame _ _ _ _ _ _ Hc) as (_ & Hlog & Hnow).
      cbn. rewrite Hlog, Hnow, log_of_snoc_same.
      split; [exact I1|]. split; [exact I2|]. split.
      * intros clk a0 Hin H0. apply In_snoc in Hin.
        destruct Hin as [Hin|Hin]; [exact (I3 _ _ Hin H0)|].
        injection Hin as <- <-. cbn in Hc.
        destruct (env =? 0); injection Hc as <- _; cbn in H0; [|discriminate].
        exists (now s). split; [lia | reflexivity].
      * intros d a0 Hin H0. apply In_snoc in Hin.
        destruct Hin as [Hin|Hin]; [exact (I4 _ _ Hin H0)|].
        injection Hin as <- <-. pose proof ETIMEDOUT_pos as Hpos.
        do_call_inv Hc; cbn in H0; lia.
    + destruct (do_call_frame _ _ _ _ _ _ Hc) as (_ & Hlog & Hnow).
      cbn. rewrite Hlog, Hnow, log_of_snoc_other by reflexivity. auto.
    + rewrite (do_call_park _ _ _ _ _ Hc). cbn. auto.
    + rewrite (do_call_park _ _ _ _ _ Hc). cbn. auto.
    + cbn. auto.
    + cbn in Hstep.
      destruct ((0 <? d) && ((now s + d) / NSEC_PER_SEC <=? get_max_time_t)) eqn:Hg;
        [|discriminate].
      apply andb_prop in Hg. destruct Hg as [Hd Hm]. apply Z.ltb_lt in Hd.
      apply Z.leb_le in Hm. cbn.
      destruct (Hkeep (now s + d) ltac:(lia)) as [K3 K4]. split; [lia|]. auto.
    + cbn. auto.
    + cbn. auto.
Qed.

End Protocol.

(** ** The claims *)

Section Claims.
Context {P : Platform} {OK : PlatformOK P}.
Variables (pid timeout_ms clock0 : Z) (procs0 : Z -> proc_state) (errno0 : Z).

#[local] Abbreviation s0 := (init pid timeout_ms clock0 procs0 errno0).

(** A call that returns is a complete run of [wait_timeout_untraced]. *)
Lemma returned_run (s : config) (r : Z) :
  reachable s0 s -> returned s = Some r ->
  runs (wait_timeout_untraced pid timeout_ms) (log_of Racer (log s)) r.
Proof.
  intros Hr Hret. pose proof (racer_log_run pid timeout_ms clock0 procs0 errno0 s Hr) as H.
  rewrite (returned_main s r Hret) in H. exact H.
Qed.

(** When the thread was created and the wait did not time out, the
    spawned thread ran to its end, was joined, and the call returns what
    it recorded. *)
Lemma woken_result (s : config) (r : Z) :
  reachable s0 s -> returned s = Some r ->
  spawned (log_of Racer (log s)) = true ->
  timed_out (log_of Racer (log s)) = false ->
  worker s = Dead false /\ joined s = true /\
  recorded (log_of Waiter (log s)) = Some r /\
  exists x, reply_to is_waitid (log_of Waiter (log s)) = Some x /\
            r = if x =? -1 then -1 else 0.
Proof.
  intros Hr Hret Hsp Hto.
  pose proof (returned_run s r Hr Hret) as Hrun.
  destruct (racer_exits pid timeout_ms errno0 _ _ Hrun) as (_ & _ & _ & _ & E).
  destruct (E Hsp) as (Hj & _ & _ & E2). rewrite Hto in E2.
  destruct E2 as (Hload & Hnc & _).
  destruct (reply_to_In _ _ _ Hload) as (c & a & Hin & Hc & Ha).
  destruct c; try discriminate Hc. destruct f; try discriminate Hc.
  destruct (loads_seen pid timeout_ms clock0 procs0 errno0 s Hr) as [_ L].
  destruct (L a Hin) as [Hmem [b Hb]].
  destruct (lifecycle pid timeout_ms clock0 procs0 errno0 s Hr) as (_ & L2 & L3 & _).
  pose proof (waiter_log_run pid timeout_ms clock0 procs0 errno0 s Hr) as Hw.
  pose proof (memory pid timeout_ms clock0 procs0 errno0 s Hr) as M.
  rewrite Hb in Hw, M. destruct b.
  { destruct Hw as [Hcr _]. rewrite (L2 Hcr) in Hnc. discriminate. }
  destruct (waiter_exits _ _ Hw) as (_ & x & Hx & Hrec).
  rewrite Hrec in M. destruct M as [_ M].
  assert (Hr' : r = if x =? -1 then -1 else 0) by congruence.
  split; [exact Hb|]. split.
  { rewrite L3. exact Hj. }
  split; [congruence|]. exists x. auto.
Qed.


Lemma grun_reachable (acts : list action) (s : config) :
  grun acts s0 = Some s -> reachable s0 s.
Proof. intros H. exists acts. exact H. Qed.

(** C1.  In every execution that returns with the thread created: if the
    wait on the condition variable returned [ETIMEDOUT], the calling
    thread, after unlocking, requests cancellation, then joins, then sets
    [errno], and the call returns -1 with [errno] at [ETIMEDOUT]; if it
    did not, the calling thread joins without any cancellation request,
    the spawned thread has run [wait_for_process] to its end, and the call
    returns the outcome that thread recorded in [return_val]: -1 when its
    [waitid] returned -1, 0 otherwise. *)
Theorem racer_cancels_on_timeout_else_returns_outcome
    (acts : list action) (s : config) (r : Z) :
  grun acts s0 = Some s -> returned s = Some r ->
  spawned (log_of Racer (log s)) = true ->
  if timed_out (log_of Racer (log s))
  then
    after is_unlock (calls (log_of Racer (log s))) =
      [Pthread_cancel; Pthread_join; Set_errno ETIMEDOUT;
       Pthread_cond_destroy; Pthread_condattr_destroy; Pthread_mutex_destroy] /\
    joined s = true /\ r = -1 /\ errno s Racer = ETIMEDOUT
  else
    after is_unlock (calls (log_of Racer (log s))) =
      [Pthread_join; Load f_return_val;
       Pthread_cond_destroy; Pthread_condattr_destroy; Pthread_mutex_destroy] /\
    issued is_cancel (log_of Racer (log s)) = false /\
    joined s = true /\ worker s = Dead false /\
    recorded (log_of Waiter (log s)) = Some r /\
    exists x, reply_to is_waitid (log_of Waiter (log s)) = Some x /\
              r = if x =? -1 then -1 else 0.
Proof.
  intros Hrun Hret Hsp. apply grun_reachable in Hrun.
  pose proof (returned_run s r Hrun Hret) as Hruns.
  destruct (racer_exits pid timeout_ms errno0 _ _ Hruns) as (_ & _ & _ & _ & E).
  destruct (E Hsp) as (Hj & Hafter & _ & E2).
  destruct (lifecycle pid timeout_ms clock0 procs0 errno0 s Hrun) as (_ & _ & L3 & _).
  destruct (timed_out (log_of Racer (log s))) eqn:Hto.
  - destruct E2 as [-> He].
    split; [exact Hafter|]. split; [congruence|]. split; [reflexivity|].
    apply (errno_tracks pid timeout_ms clock0 procs0 errno0 s Hrun Racer _ He).
  - destruct E2 as (_ & Hnc & _).
    destruct (woken_result s r Hrun Hret Hsp Hto) as (Hw & Hjd & Hrec & Hx).
    auto 10.
Qed.

(** C2.  In every execution the only wait on a process is the spawned
    thread's [waitid(P_PID, pid, WNOWAIT | WEXITED)], issued at most once;
    it returns 0 only when process [pid] has terminated, and that process
    is then still uncollected; no process is ever collected, and a
    terminated one stays collectible whatever follows; and what the thread
    records is -1 when [waitid] returned -1 and 0 otherwise. *)
Theorem waiter_peeks_and_records (acts : list action) (s : config) :
  grun acts s0 = Some s ->
  issued is_waitid (log_of Racer (log s)) = false /\
  (count is_waitid (log_of Waiter (log s)) <= 1)%nat /\
  (forall c a, In (c, a) (log_of Waiter (log s)) -> is_waitid c = true ->
     c = Waitid P_PID pid (Z.lor WNOWAIT WEXITED)) /\
  (reply_to is_waitid (log_of Waiter (log s)) = Some 0 -> procs s pid = Zombie) /\
  (forall q, procs0 q <> Reaped -> procs s q <> Reaped) /\
  (forall acts' s' q, grun acts' s = Some s' ->
     procs s q = Zombie -> procs s' q = Zombie) /\
  (forall v, recorded (log_of Waiter (log s)) = Some v ->
     exists x, reply_to is_waitid (log_of Waiter (log s)) = Some x /\
               v = if x =? -1 then -1 else 0) /\
  (worker s = Dead false ->
     exists x, reply_to is_waitid (log_of Waiter (log s)) = Some x /\
               recorded (log_of Waiter (log s)) = Some (if x =? -1 then -1 else 0)).
Proof.
  intros Hrun. apply grun_reachable in Hrun.
  pose proof (racer_log_run pid timeout_ms clock0 procs0 errno0 s Hrun) as Hrl.
  destruct (racer_prefix _ _ _ _ Hrl) as (_ & _ & _ & Hnw).
  pose proof (waiter_log_run pid timeout_ms clock0 procs0 errno0 s Hrun) as Hwl.
  assert (Hpre : exists p, steps wait_for_process (log_of Waiter (log s)) p).
  { destruct (worker s) as [|p|[|]].
    - rewrite Hwl. exists wait_for_process. reflexivity.
    - exists p. exact Hwl.
    - destruct Hwl as (_ & c & k & Hs & _). eauto.
    - exists (Ret tt). exact Hwl. }
  destruct Hpre as [p Hpre].
  destruct (waiter_prefix _ _ Hpre) as (_ & _ & Hcw & _ & _ & _ & Hrec & Hwid).
  destruct (loads_seen pid timeout_ms clock0 procs0 errno0 s Hrun) as [Hld _].
  assert (Hcall : forall c a, In (c, a) (log_of Waiter (log s)) -> is_waitid c = true ->
                    c = Waitid P_PID pid (Z.lor WNOWAIT WEXITED)).
  { intros c a Hin Hc. destruct (Hwid c a Hin Hc) as (a0 & Hin0 & ->).
    rewrite (Hld a0 Hin0). reflexivity. }
  split; [exact Hnw|]. split; [exact Hcw|]. split; [exact Hcall|]. split.
  { intros H0. destruct (reply_to_In _ _ _ H0) as (c & a & Hin & Hc & Ha).
    pose proof (Hcall c a Hin Hc) as ->.
    apply (waitid_seen pid timeout_ms clock0 procs0 errno0 s Hrun _ _ _ _ Hin). exact Ha. }
  split.
  { intros q Hq.
    destruct (procs_monotone pid timeout_ms clock0 procs0 errno0 s0 s
                (reachable_refl _) Hrun q) as [E|[_ E]]; rewrite E; [exact Hq|discriminate]. }
  split.
  { intros acts' s' q Hrun' Hz.
    destruct (procs_monotone pid timeout_ms clock0 procs0 errno0 s s' Hrun
                (ex_intro _ acts' Hrun') q) as [E|[E _]]; congruence. }
  split; [exact Hrec|].
  intros Hd. rewrite Hd in Hwl. destruct (waiter_exits _ _ Hwl) as (_ & x & Hx & Hr).
  eauto.
Qed.


(** X1.  Whatever the schedule, the replies of the library and the fate
    of the process, a call that returns returns 0 or -1: never an error
    number, never the raw result of [pthread_cond_timedwait]. *)
Lemma result_is_0_or_minus_1 (acts : list action) (s : config) (r : Z) :
  grun acts s0 = Some s -> returned s = Some r -> r = 0 \/ r = -1.
Proof.
  intros Hrun Hret. pose proof (grun_reachable _ _ Hrun) as Hr.
  pose proof (returned_run s r Hr Hret) as Hruns.
  destruct (racer_exits pid timeout_ms errno0 _ _ Hruns) as (Hsf & _ & _ & E1 & E2).
  destruct (spawned (log_of Racer (log s))) eqn:Hsp.
  - destruct (E2 eq_refl) as (_ & _ & _ & E).
    destruct (timed_out (log_of Racer (log s))) eqn:Hto.
    + right. apply E.
    + destruct (woken_result s r Hr Hret Hsp Hto) as (_ & _ & _ & x & _ & ->).
      destruct (x =? -1); auto.
  - right. apply E1. destruct (setup_failed _); [reflexivity | discriminate].
Qed.

(** C4, as the code has it.  In every execution that returns and in which
    the clock reading makes the deadline overflow, [pthread_create] had
    succeeded before the clock was read: the thread exists when the
    overflow is found.  On that path the calling thread never waits on
    the condition variable, requests no cancellation, and joins the
    thread, which has run to its end, before it returns. *)
Theorem overflow_detected_after_spawn
    (acts : list action) (s : config) (r : Z) (ts : timespec) :
  grun acts s0 = Some s -> returned s = Some r ->
  clock_read (log_of Racer (log s)) = Some ts ->
  clock_reading ts -> 0 <= timeout_ms <= UINT32_MAX ->
  get_max_time_t < tv_sec ts + carried_seconds ts timeout_ms ->
  calls (log_of Racer (log s)) =
    [Pthread_mutex_init; Pthread_condattr_init; Store f_pid pid;
     Store f_return_val (-1); Pthread_condattr_setclock CLOCK_MONOTONIC;
     Pthread_cond_init; Pthread_create fn_wait_for_process;
     Pthread_mutex_lock; Clock_gettime CLOCK_MONOTONIC;
     Pthread_mutex_unlock; Pthread_join; Load f_return_val;
     Pthread_cond_destroy; Pthread_condattr_destroy; Pthread_mutex_destroy] /\
  spawned (log_of Racer (log s)) = true /\
  issued is_timedwait (log_of Racer (log s)) = false /\
  issued is_cancel (log_of Racer (log s)) = false /\
  worker s = Dead false /\ joined s = true.
Proof.
  intros Hrun Hret Hclk Hts Hms Hov. apply grun_reachable in Hrun.
  pose proof (returned_run s r Hrun Hret) as Hruns.
  assert (Hd : internal_4_deadline ts timeout_ms = None).
  { rewrite (internal_4_deadline_eq ts timeout_ms Hts Hms).
    destruct (Z.ltb_spec (get_max_time_t - carried_seconds ts timeout_ms) (tv_sec ts));
      [reflexivity | lia]. }
  destruct (racer_overflow _ _ _ _ _ Hruns Hclk Hd) as (Hcalls & Hsp & Hto).
  destruct (woken_result s r Hrun Hret Hsp Hto) as (Hw & Hj & _).
  split; [exact Hcalls|]. split; [exact Hsp|].
  rewrite !issued_calls, Hcalls. auto.
Qed.



(** C9.  In every execution that returns, whatever the path: every
    mutex, attribute and condition variable that was initialised has been
    destroyed, a created thread has been joined, the condition variable
    was destroyed with no thread left and the mutex after both; the
    spawned thread, if there was one, is dead and joined; and after the
    join come first the condition variable's destruction, then the
    attribute's, then the mutex's. *)
Theorem nothing_outlives_the_call (acts : list action) (s : config) (r : Z) :
  grun acts s0 = Some s -> returned s = Some r ->
  outstanding (log_of Racer (log s)) = no_resources /\
  (if spawned (log_of Racer (log s))
   then (exists b, worker s = Dead b) /\ joined s = true /\
        exists c, after is_join (calls (log_of Racer (log s))) =
                    [c; Pthread_cond_destroy; Pthread_condattr_destroy;
                     Pthread_mutex_destroy]
   else worker s = Unborn).
Proof.
  intros Hrun Hret. pose proof (grun_reachable _ _ Hrun) as Hr.
  pose proof (returned_run s r Hr Hret) as Hruns.
  destruct (racer_exits pid timeout_ms errno0 _ _ Hruns) as (_ & Ho & _ & _ & E2).
  destruct (lifecycle pid timeout_ms clock0 procs0 errno0 s Hr) as (L1 & _ & L3 & L4).
  split; [exact Ho|].
  destruct (spawned (log_of Racer (log s))) eqn:Hsp.
  - destruct (E2 eq_refl) as (Hj & _ & Ha & _).
    rewrite <- L3 in Hj. split; [exact (L4 Hj)|]. split; [exact Hj|]. eauto.
  - destruct (worker s); [reflexivity | discriminate ..].
Qed.

(** C7, as the code has it.  At every state of every execution: the
    spawned thread has written [return_val] at most once, a 0 or a -1,
    and signalled at most once; when it is about to write, it does not
    hold the mutex; when it is about to signal, it does; and when the
    calling thread is about to write a field of [proc_info_t] the thread
    does not exist yet, its only write to [return_val] being the initial
    -1. *)
Theorem outcome_written_once_outside_guard (acts : list action) (s : config) :
  grun acts s0 = Some s ->
  (count (is_store_to f_return_val) (log_of Waiter (log s)) <= 1)%nat /\
  (forall v, In v (stored f_return_val (log_of Waiter (log s))) -> v = 0 \/ v = -1) /\
  (count is_signal (log_of Waiter (log s)) <= 1)%nat /\
  (forall f v k, worker s = Live (Call (Store f v) k) ->
     f = f_return_val /\ owner s <> Some Waiter) /\
  (forall k, worker s = Live (Call Pthread_cond_signal k) ->
     owner s = Some Waiter) /\
  (forall f v k, main s = Call (Store f v) k -> worker s = Unborn) /\
  (stored f_return_val (log_of Racer (log s)) = [] \/
   stored f_return_val (log_of Racer (log s)) = [-1]).
Proof.
  intros Hrun. apply grun_reachable in Hrun.
  pose proof (racer_log_run pid timeout_ms clock0 procs0 errno0 s Hrun) as Hrl.
  destruct (racer_prefix _ _ _ _ Hrl) as (Hst & _ & _ & _).
  pose proof (waiter_log_run pid timeout_ms clock0 procs0 errno0 s Hrun) as Hwl.
  assert (Hpre : exists p, steps wait_for_process (log_of Waiter (log s)) p).
  { destruct (worker s) as [|p|[|]].
    - rewrite Hwl. exists wait_for_process. reflexivity.
    - exists p. exact Hwl.
    - destruct Hwl as (_ & c & k & Hs & _). eauto.
    - exists (Ret tt). exact Hwl. }
  destruct Hpre as [p Hpre].
  destruct (waiter_prefix _ _ Hpre) as (Hc1 & Hc2 & _ & _ & _ & Hv & _).
  pose proof (owner_tracks pid timeout_ms clock0 procs0 errno0 s Hrun) as Hown.
  destruct (lifecycle pid timeout_ms clock0 procs0 errno0 s Hrun) as (L1 & _).
  repeat split; auto.
  - pose proof (waiter_at pid timeout_ms clock0 procs0 errno0 s _ k Hrun H) as Hat.
    apply Hat.
  - pose proof (waiter_at pid timeout_ms clock0 procs0 errno0 s _ k Hrun H) as Hat.
    destruct Hat as (_ & _ & _ & Hh). intros Ho. apply Hown in Ho. congruence.
  - intros k Hk.
    pose proof (waiter_at pid timeout_ms clock0 procs0 errno0 s _ k Hrun Hk) as Hat.
    apply Hown, Hat.
  - intros f v k Hm.
    pose proof (racer_at pid timeout_ms clock0 procs0 errno0 s _ k Hrun Hm) as Hat.
    destruct Hat as [Hsp _]. rewrite Hsp in L1.
    destruct (worker s); [reflexivity | discriminate ..].
Qed.

End Claims.

(** ** Further properties of the code *)

Section TimeRange.
Context {P : Platform}.

(** X2.  [get_max_time_t] is the greatest value of [time_t]: every value
    converted to [time_t] is at most [get_max_time_t], the conversion
    leaves [get_max_time_t] as it is, and one more wraps around to the
    least value of the type. *)
Theorem get_max_time_t_is_greatest :
  1 <= bits time_t ->
  (forall z, min_of time_t <= cast time_t z <= get_max_time_t) /\
  cast time_t get_max_time_t = get_max_time_t /\
  cast time_t (get_max_time_t + 1) = min_of time_t.
Proof.
  intros Hb. rewrite get_max_time_t_max.
  unfold cast, min_of, max_of.
  assert (Hp : 2 ^ bits time_t = 2 * 2 ^ (bits time_t - 1)).
  { replace (bits time_t) with (Z.succ (bits time_t - 1)) at 1 by lia.
    rewrite Z.pow_succ_r by lia. reflexivity. }
  assert (Hq : 0 < 2 ^ (bits time_t - 1)) by (apply Z.pow_pos_nonneg; lia).
  assert (Hw : 0 < 2 ^ bits time_t) by (apply Z.pow_pos_nonneg; lia).
  destruct (is_signed time_t).
  - split; [|split].
    + intros z.
      pose proof (Z.mod_pos_bound (z + 2 ^ (bits time_t - 1)) (2 ^ bits time_t) Hw).
      lia.
    + rewrite Z.mod_small by lia. lia.
    + replace (2 ^ (bits time_t - 1) - 1 + 1 + 2 ^ (bits time_t - 1))
        with (2 ^ bits time_t) by lia.
      rewrite Z.mod_same by lia. lia.
  - split; [|split].
    + intros z. pose proof (Z.mod_pos_bound z (2 ^ bits time_t) Hw). lia.
    + apply Z.mod_small. lia.
    + replace (2 ^ bits time_t - 1 + 1) with (2 ^ bits time_t) by lia.
      apply Z.mod_same. lia.
Qed.

End TimeRange.

Section Outcomes.
Context {P : Platform} {OK : PlatformOK P}.

(** X3.  The overflow check does not reject deadlines that fit: for a
    clock reading more than 4294968 seconds (the largest timeout, one
    carried second included) before the end of [time_t], a deadline is
    computed for every 32-bit timeout; and a timeout of zero gives the
    clock reading itself as deadline. *)
Theorem overflow_only_near_the_end_of_time (ts : timespec) (timeout_ms : Z) :
  clock_reading ts -> 0 <= timeout_ms <= UINT32_MAX ->
  (tv_sec ts + 4294968 <= get_max_time_t ->
   internal_4_deadline ts timeout_ms <> None) /\
  internal_4_deadline ts 0 = Some ts.
Proof.
  intros Hts Hms. split.
  - intros Hfar. rewrite (internal_4_deadline_eq ts timeout_ms Hts Hms).
    destruct Hts as [Hs Hn].
    destruct (carried_seconds_bounds ts timeout_ms Hn Hms) as (_ & _ & _ & Hc).
    destruct (Z.ltb_spec (get_max_time_t - carried_seconds ts timeout_ms) (tv_sec ts));
      [lia | discriminate].
  - rewrite (internal_4_deadline_eq ts 0 Hts) by (unfold UINT32_MAX; lia).
    destruct Hts as [Hs Hn]. unfold carried_seconds, NSEC_PER_SEC in *.
    change (0 mod 1000) with 0. change (0 / 1000) with 0.
    rewrite Z.mul_0_l, Z.add_0_r, Z.add_0_l.
    rewrite Z.div_small, Z.mod_small by lia.
    rewrite Z.sub_0_r, Z.add_0_r.
    destruct (Z.ltb_spec get_max_time_t (tv_sec ts)); [lia|].
    destruct ts; reflexivity.
Qed.

Variables (pid timeout_ms clock0 : Z) (procs0 : Z -> proc_state) (errno0 : Z).

#[local] Abbreviation s0 := (init pid timeout_ms clock0 procs0 errno0).

(** The only process the spawned thread waits for is [pid]. *)
Lemma waitid_target (s : config) (c : call) (a : reply) :
  reachable s0 s -> In (c, a) (log_of Waiter (log s)) -> is_waitid c = true ->
  c = Waitid P_PID pid (Z.lor WNOWAIT WEXITED).
Proof.
  intros Hr Hin Hc.
  pose proof (waiter_log_run pid timeout_ms clock0 procs0 errno0 s Hr) as Hwl.
  assert (Hpre : exists p, steps wait_for_process (log_of Waiter (log s)) p).
  { destruct (worker s) as [|p|[|]].
    - rewrite Hwl. exists wait_for_process. reflexivity.
    - exists p. exact Hwl.
    - destruct Hwl as (_ & c' & k & Hs & _). eauto.
    - exists (Ret tt). exact Hwl. }
  destruct Hpre as [p Hpre].
  destruct (waiter_prefix _ _ Hpre) as (_ & _ & _ & _ & _ & _ & _ & Hwid).
  destruct (loads_seen pid timeout_ms clock0 procs0 errno0 s Hr) as [Hld _].
  destruct (Hwid c a Hin Hc) as (a0 & Hin0 & ->).
  rewrite (Hld a0 Hin0). reflexivity.
Qed.

(** X4.  A result of 0 means that process [pid] has terminated: the wait
    did not time out, the spawned thread ran [wait_for_process] to its
    end and was joined, its [waitid] returned 0, and the process is a
    zombie still, left for the caller to collect. *)
Theorem success_means_terminated (acts : list action) (s : config) :
  grun acts s0 = Some s -> returned s = Some 0 ->
  timed_out (log_of Racer (log s)) = false /\
  worker s = Dead false /\ joined s = true /\
  reply_to is_waitid (log_of Waiter (log s)) = Some 0 /\
  procs s pid = Zombie.
Proof.
  intros Hrun Hret. pose proof (grun_reachable _ _ _ _ _ _ _ Hrun) as Hr.
  pose proof (returned_run _ _ _ _ _ s 0 Hr Hret) as Hruns.
  destruct (racer_exits pid timeout_ms errno0 _ _ Hruns) as (Hsf & _ & _ & E1 & E2).
  assert (Hsp : spawned (log_of Racer (log s)) = true).
  { rewrite Hsf. destruct (setup_failed _); [|reflexivity].
    destruct (E1 eq_refl) as [H _]. discriminate H. }
  assert (Hto : timed_out (log_of Racer (log s)) = false).
  { destruct (E2 Hsp) as (_ & _ & _ & E). destruct (timed_out _); [|reflexivity].
    destruct E as [H _]. discriminate H. }
  destruct (woken_result _ _ _ _ _ s 0 Hr Hret Hsp Hto) as (Hw & Hj & _ & x & Hx & Hx0).
  destruct (reply_to_In _ _ _ Hx) as (c & a & Hin & Hc & Ha).
  pose proof (waitid_target s c a Hr Hin Hc) as ->.
  destruct (waitid_seen pid timeout_ms clock0 procs0 errno0 s Hr _ _ _ _ Hin) as [H01 Hz].
  assert (Hx1 : x = 0).
  { destruct (Z.eqb_spec x (-1)); [discriminate Hx0|]. lia. }
  rewrite Hx1 in Hx, Ha. auto 6.
Qed.



(** X7.  The mutex is used as POSIX requires, in every reachable state:
    every [pthread_mutex_unlock] that returned returned 0; a thread about
    to lock does not own the mutex, a thread about to unlock does; the
    calling thread enters [pthread_cond_timedwait] owning the mutex, and
    does not own it while it is blocked there. *)
Theorem mutex_used_as_posix_requires (acts : list action) (s : config) :
  grun acts s0 = Some s ->
  (forall t a, In (Pthread_mutex_unlock, a) (log_of t (log s)) -> rc a = 0) /\
  (pending_call s = Some Pthread_mutex_lock -> owner s <> Some Racer) /\
  (next_call s = Some Pthread_mutex_lock -> owner s <> Some Waiter) /\
  (pending_call s = Some Pthread_mutex_unlock -> owner s = Some Racer) /\
  (next_call s = Some Pthread_mutex_unlock -> owner s = Some Waiter) /\
  (forall d, pending_call s = Some (Pthread_cond_timedwait d) ->
     parked s = None -> owner s = Some Racer) /\
  (parked s <> None -> owner s <> Some Racer).
Proof.
  intros Hrun. pose proof (grun_reachable _ _ _ _ _ _ _ Hrun) as Hr.
  destruct (racer_owner pid timeout_ms clock0 procs0 errno0 s Hr) as (Hp & Ho & Hpm).
  pose proof (owner_tracks pid timeout_ms clock0 procs0 errno0 s Hr) as Hw.
  pose proof (waiter_here pid timeout_ms clock0 procs0 errno0 s Hr) as Hwh.
  pose proof (racer_here pid timeout_ms clock0 procs0 errno0 s) as Hrh.
  unfold pending_call, next_call.
  split; [exact (unlocks_succeed pid timeout_ms clock0 procs0 errno0 s Hr)|].
  split; [|split; [|split; [|split; [|split]]]].
  - destruct (main s) as [r|c k]; [discriminate|].
    intros Hm Hown. injection Hm as ->. specialize (Hrh _ _ Hr eq_refl).
    cbn in Hrh. apply Ho in Hown. destruct Hown as [Hown _]. congruence.
  - destruct (worker s) as [|[r|c k]|b]; try discriminate.
    intros Hk Hown. injection Hk as ->. destruct Hwh as [H _].
    apply Hw in Hown. specialize (H eq_refl). congruence.
  - destruct (main s) as [r|c k] eqn:Hmain; [discriminate|].
    intros Hm. injection Hm as ->. specialize (Hrh _ _ Hr eq_refl).
    cbn in Hrh. apply Ho. split; [exact Hrh|].
    destruct Hp as [Hp|Hp]; [exact Hp|].
    destruct (Hpm Hp) as (d & k' & Hm'). discriminate Hm'.
  - destruct (worker s) as [|[r|c k]|b]; try discriminate.
    intros Hk. injection Hk as ->. destruct Hwh as [_ H]. apply Hw, H. reflexivity.
  - destruct (main s) as [r|c k]; [discriminate|].
    intros d Hm Hp0. injection Hm as ->. specialize (Hrh _ _ Hr eq_refl).
    cbn in Hrh. apply Ho. split; [apply Hrh | exact Hp0].
  - intros Hp0 Hown. apply Ho in Hown. destruct Hown as [_ Hown]. contradiction.
Qed.

(** X8.  The condition variable and the mutex are destroyed only when
    nothing uses them: when the calling thread is about to destroy either
    of them, no thread owns the mutex, no thread is blocked on the
    condition variable, and the spawned thread was never created or has
    ended and been joined. *)
Theorem primitives_destroyed_idle (acts : list action) (s : config) (c : call) :
  grun acts s0 = Some s -> pending_call s = Some c ->
  c = Pthread_cond_destroy \/ c = Pthread_mutex_destroy ->
  owner s = None /\ parked s = None /\
  (worker s = Unborn \/ exists b, worker s = Dead b /\ joined s = true).
Proof.
  intros Hrun Hm Hc. pose proof (grun_reachable _ _ _ _ _ _ _ Hrun) as Hr.
  unfold pending_call in Hm. destruct (main s) as [r|c' k] eqn:Hmain; [discriminate|].
  injection Hm as ->. rename Hmain into Hm.
  destruct (racer_owner pid timeout_ms clock0 procs0 errno0 s Hr) as (Hp & Ho & Hpm).
  pose proof (owner_tracks pid timeout_ms clock0 procs0 errno0 s Hr) as Hw.
  pose proof (waiter_here pid timeout_ms clock0 procs0 errno0 s Hr) as Hwh.
  destruct (lifecycle pid timeout_ms clock0 procs0 errno0 s Hr) as (Hsp & _ & Hj & Hjd).
  pose proof (racer_here pid timeout_ms clock0 procs0 errno0 s _ _ Hr Hm) as H.
  assert (Hh : holds_mutex (log_of Racer (log s)) = false /\
               (spawned (log_of Racer (log s)) = true ->
                issued is_join (log_of Racer (log s)) = true)).
  { destruct Hc as [-> | ->]; exact H. }
  clear H. destruct Hh as [Hh Hjoin].
  assert (Hpk : parked s = None).
  { destruct Hp as [Hp|Hp]; [exact Hp|].
    destruct (Hpm Hp) as (d & k' & Hm'). rewrite Hm in Hm'.
    destruct Hc as [-> | ->]; discriminate Hm'. }
  assert (Hwk : worker s = Unborn \/ exists b, worker s = Dead b /\ joined s = true).
  { destruct (worker s) as [|p|b] eqn:Hwk; [left; reflexivity| |];
      right; rewrite Hj in *; specialize (Hjoin Hsp);
      destruct (Hjd Hjoin) as [b' Hb']; [discriminate Hb'|].
    exists b. auto. }
  split; [|auto].
  destruct (owner s) as [[|]|] eqn:Hown; [| |reflexivity].
  - destruct Ho as [Ho _]. destruct (Ho eq_refl) as [Ho' _]. congruence.
  - destruct Hw as [Hw _]. specialize (Hw eq_refl).
    destruct Hwk as [Hu | (b & Hb & _)].
    + rewrite Hu in Hwh. rewrite Hwh in Hw. discriminate Hw.
    + rewrite Hb in Hwh. destruct b; [destruct Hwh as [_ Hwh]|]; congruence.
Qed.

(** X9.  No timeout is reported early: for a call made when the clock
    reads [clock0] (a time [time_t] can hold) with a 32-bit timeout, once
    [pthread_cond_timedwait] has returned [ETIMEDOUT] at least
    [timeout_ms] milliseconds have passed since the call was made. *)
Theorem no_timeout_before_the_deadline (acts : list action) (s : config) :
  0 <= clock0 -> clock0 / NSEC_PER_SEC <= get_max_time_t ->
  0 <= timeout_ms <= UINT32_MAX ->
  grun acts s0 = Some s ->
  timed_out (log_of Racer (log s)) = true ->
  clock0 + timeout_ms * 1000000 <= now s.
Proof.
  intros H0 Hmax Hms Hrun Hto. pose proof (grun_reachable _ _ _ _ _ _ _ Hrun) as Hr.
  pose proof (racer_log_run pid timeout_ms clock0 procs0 errno0 s Hr) as Hsteps.
  destruct (racer_history _ _ _ _ Hsteps) as (_ & _ & Hd & _).
  destruct (clock_seen pid timeout_ms clock0 procs0 errno0 s Hr) as (Hnow & Hcap & Hclk & Htw).
  unfold timed_out in Hto. apply existsb_exists in Hto.
  destruct Hto as ([c a] & Hin & Hc). apply andb_prop in Hc. destruct Hc as [Hc Hrc].
  cbn in Hc, Hrc. apply Z.eqb_eq in Hrc.
  destruct c; try discriminate Hc.
  destruct (Hd _ _ Hin) as (ts & Hread & Hdl).
  specialize (Htw _ _ Hin Hrc).
  unfold clock_read in Hread.
  destruct (find _ _) as [[c' a']|] eqn:Hf; [|discriminate Hread].
  injection Hread as <-. apply find_some in Hf. destruct Hf as [Hin' Hc'].
  cbn in Hc'. apply andb_prop in Hc'. destruct Hc' as [Hc' Hrc'].
  apply Z.eqb_eq in Hrc'. destruct c'; try discriminate Hc'.
  destruct (Hclk _ _ Hin' Hrc') as (n & Hn & Hts). cbn [snd] in Hdl. rewrite Hts in Hdl.
  assert (Hpos : 0 < NSEC_PER_SEC) by (unfold NSEC_PER_SEC; lia).
  assert (Hreading : clock_reading (timespec_of n)).
  { unfold clock_reading, timespec_of. cbn. split.
    - split; [apply Z.div_pos; lia|].
      transitivity (now s / NSEC_PER_SEC); [apply Z.div_le_mono; lia | auto].
    - apply Z.mod_pos_bound. exact Hpos. }
  rewrite (internal_4_deadline_eq _ _ Hreading Hms) in Hdl.
  destruct (_ <? _); [discriminate Hdl|]. injection Hdl as <-.
  pose proof (deadline_nanos (timespec_of n) timeout_ms (proj1 Hms)) as Hdn.
  cbn [tv_sec tv_nsec timespec_of] in Hdn. rewrite Hdn in Htw.
  assert (Hnn : ts_nanos (timespec_of n) = n).
  { unfold ts_nanos, timespec_of. cbn.
    rewrite (Z.div_mod n NSEC_PER_SEC) at 3 by lia. lia. }
  rewrite Hnn in Htw. lia.
Qed.


End Outcomes.

(** ** Blocking and progress *)

Section Blocking.
Context {P : Platform} {OK : PlatformOK P}.

#[local] Arguments wait_for_process {P} : simpl never.
#[local] Arguments spawned t : simpl never.
#[local] Arguments issued sel t : simpl never.
#[local] Arguments timed_out {P} t : simpl never.
#[local] Arguments holds_mutex t : simpl never.
#[local] Arguments wait_timeout_untraced {P} pid timeout_ms : simpl never.

(** Where the calling thread can block, and what it has done by then. *)
Lemma racer_blocking (pid ms : Z) (t : list event) (p' : prog Z) :
  steps (wait_timeout_untraced pid ms) t p' ->
  match p' with
  | Call Pthread_join _ =>
      issued is_join t = false /\
      (timed_out t = true -> issued is_cancel t = true)
  | Call (Pthread_create _) _ => issued is_cancel t = false
  | Call Pthread_cancel _ => spawned t = true
  | _ => True
  end.
Proof.
  intros H. all_steps H; subst p'; booleans; settle; auto; try (repeat split; eauto; discriminate).
Qed.

(** The spawned thread holds the mutex only to signal and to unlock. *)
Lemma waiter_holding (t : list event) (p' : prog unit) :
  steps wait_for_process t p' -> holds_mutex t = true ->
  exists k, p' = Call Pthread_cond_signal k \/ p' = Call Pthread_mutex_unlock k.
Proof.
  intros H. all_steps H; subst p'; booleans; settle; intros Hh;
    try discriminate Hh; eauto.
Qed.

Variables (pid ms clock0 : Z) (procs0 : Z -> proc_state) (errno0 : Z).
#[local] Abbreviation s0 := (init pid ms clock0 procs0 errno0).

(** A cancellation the calling thread requested is pending until the
    spawned thread has ended. *)
Lemma cancel_pending (s : config) :
  reachable s0 s ->
  issued is_cancel (log_of Racer (log s)) = true ->
  cancel_req s = true \/ exists b, worker s = Dead b.
Proof.
  intros H. pattern s. revert s H. apply reachable_ind.
  - cbn. discriminate.
  - intros s a s' Hr IH Hstep. shapes Hstep.
    + pose proof (racer_log_run pid ms clock0 procs0 errno0 s Hr) as Hrun.
      rewrite Hm in Hrun. pose proof (racer_blocking _ _ _ _ Hrun) as Hb.
      destruct (lifecycle pid ms clock0 procs0 errno0 s Hr) as (L1 & _).
      cbn. rewrite log_of_snoc_same, issued_snoc. cbn [fst].
      destruct c; do_call_inv Hc; cbn; rewrite ?orb_false_r; auto;
        try (intros Hi; rewrite Hb in Hi; discriminate Hi);
        try (intros _; eauto; fail).
      congruence.
    + cbn. rewrite log_of_snoc_other by reflexivity.
      destruct c; do_call_inv Hc; cbn; auto;
        intros Hi; destruct (IH Hi) as [?|[b Hb]]; auto; congruence.
    + rewrite (do_call_park _ _ _ _ _ Hc). cbn. auto.
    + rewrite (do_call_park _ _ _ _ _ Hc). cbn. auto.
    + cbn. eauto.
    + cbn. auto.
    + cbn. auto.
    + cbn. eauto.
Qed.

(** The spawned thread can go on unless it waits for the living process
    or for a mutex the calling thread holds. *)
Lemma waiter_moves (s : config) (p : prog unit) :
  reachable s0 s -> worker s = Live p -> owner s <> Some Racer ->
  (exists env s', gstep (Sched Waiter env) s = Some s') \/
  (next_call s = Some (Waitid P_PID pid (Z.lor WNOWAIT WEXITED)) /\
   procs s pid = Alive).
Proof.
  intros Hr Hw Hown.
  pose proof (waiter_log_run pid ms clock0 procs0 errno0 s Hr) as Hrun.
  pose proof (waiter_here pid ms clock0 procs0 errno0 s Hr) as Hwh.
  pose proof (owner_tracks pid ms clock0 procs0 errno0 s Hr) as Hot.
  destruct (loads_seen pid ms clock0 procs0 errno0 s Hr) as [Hld _].
  unfold next_call. rewrite Hw in *.
  destruct p as [u|c k]; [left; exists 0; cbn; rewrite Hw; eauto|].
  pose proof (waiter_points _ _ Hrun) as Hpt.
  destruct c; try contradiction;
    try (left; exists 1; cbn; rewrite Hw; cbn; eauto; fail).
  - destruct (owner s) as [[|]|] eqn:Ho.
    + congruence.
    + destruct Hwh as [Hl _]. destruct Hot as [Hot _].
      rewrite (Hl eq_refl) in Hot. specialize (Hot eq_refl). discriminate Hot.
    + left. exists 0. cbn. rewrite Hw. cbn. rewrite Ho. eauto.
  - destruct (owner_is Waiter s) eqn:Hoi; left; exists 0; cbn; rewrite Hw; cbn;
      rewrite Hoi; eauto.
  - left. exists 0. cbn. rewrite Hw. cbn. destruct (parked s); eauto.
  - destruct Hpt as (-> & -> & a & Hlog & ->).
    assert (Hpid : rc a = pid).
    { apply Hld. rewrite Hlog. left. reflexivity. }
    rewrite Hpid in *.
    destruct (procs s pid) eqn:Hp; try (right; split; reflexivity);
      left; exists 0; cbn; rewrite Hw; cbn; rewrite Hp;
      repeat match goal with
             | |- context [if ?b then _ else _] => destruct b
             end; eauto.
Qed.

(** X11.  The call never deadlocks.  In every reachable state in which
    the call has not returned, a thread can go on or the pending
    cancellation can be delivered, unless the calling thread waits for a
    deadline that has not come, or the calling thread is about to join,
    without having timed out, a thread that waits in [waitid] for the
    living process [pid]. *)
Theorem call_never_deadlocks (acts : list action) (s : config) :
  grun acts s0 = Some s -> returned s = None ->
  (exists t env s', gstep (Sched t env) s = Some s') \/
  (exists s', gstep DeliverCancel s = Some s') \/
  (exists d, pending_call s = Some (Pthread_cond_timedwait d) /\
             parked s = Some Racer /\ now s < ts_nanos d) \/
  (pending_call s = Some Pthread_join /\
   next_call s = Some (Waitid P_PID pid (Z.lor WNOWAIT WEXITED)) /\
   procs s pid = Alive /\ timed_out (log_of Racer (log s)) = false).
Proof.
  intros Hacts Hret. pose proof (grun_reachable _ _ _ _ _ _ _ Hacts) as Hr.
  unfold returned in Hret. destruct (main s) as [r|c k] eqn:Hm; [discriminate|].
  clear Hret.
  pose proof (racer_log_run pid ms clock0 procs0 errno0 s Hr) as Hrun.
  rewrite Hm in Hrun.
  pose proof (racer_points _ _ _ _ Hrun) as Hpt.
  pose proof (racer_here pid ms clock0 procs0 errno0 s _ _ Hr Hm) as Hrh.
  pose proof (racer_blocking _ _ _ _ Hrun) as Hrb.
  destruct (racer_owner pid ms clock0 procs0 errno0 s Hr) as (Hp & Ho & Hpm).
  pose proof (owner_tracks pid ms clock0 procs0 errno0 s Hr) as Hot.
  pose proof (waiter_here pid ms clock0 procs0 errno0 s Hr) as Hwh.
  pose proof (waiter_log_run pid ms clock0 procs0 errno0 s Hr) as Hwl.
  destruct (lifecycle pid ms clock0 procs0 errno0 s Hr) as (L1 & _ & L3 & _).
  assert (Hholder : owner s = Some Waiter ->
            exists env s', gstep (Sched Waiter env) s = Some s').
  { intros Hown. destruct Hot as [Hot _]. specialize (Hot Hown).
    destruct (worker s) as [|p|[|]] eqn:Hw.
    - rewrite Hwh in Hot. discriminate Hot.
    - destruct (waiter_moves s p Hr Hw) as [H|[H _]]; [congruence|exact H|].
      destruct (waiter_holding _ _ Hwl Hot) as [k' [-> | ->]];
        unfold next_call in H; rewrite Hw in H; discriminate H.
    - destruct Hwh as [_ Hwh]. congruence.
    - congruence. }
  unfold pending_call. rewrite Hm.
  destruct c; try contradiction;
    try (left; exists Racer, 1; cbn; rewrite Hm; cbn; eauto; fail).
  - (* pthread_mutex_lock *)
    cbn in Hrh. left. destruct (owner s) as [[|]|] eqn:Hown.
    + destruct Ho as [Ho _]. destruct (Ho eq_refl). congruence.
    + destruct (Hholder eq_refl) as (env & s' & H). eauto.
    + exists Racer, 0. cbn. rewrite Hm. cbn. rewrite Hown. eauto.
  - (* pthread_mutex_unlock *)
    left. exists Racer, 0. cbn. rewrite Hm. cbn. destruct (owner_is Racer s); eauto.
  - (* pthread_cond_timedwait *)
    cbn in Hrh. destruct Hrh as (Hh & _).
    destruct Hp as [Hp|Hp].
    + left. exists Racer, 0. cbn. rewrite Hm. cbn. rewrite Hp.
      assert (Hown : owner s = Some Racer) by (apply Ho; auto).
      unfold owner_is. rewrite Hown. cbn. eauto.
    + destruct (owner s) as [[|]|] eqn:Hown.
      * destruct Ho as [Ho _]. destruct (Ho eq_refl). congruence.
      * left. destruct (Hholder eq_refl) as (env & s' & H). eauto.
      * destruct (signalled s) eqn:Hsig.
        { left. exists Racer, 0. cbn. rewrite Hm. cbn. rewrite Hp, Hown, Hsig. cbn. eauto. }
        destruct (Z.leb_spec (ts_nanos abstime) (now s)) as [Hle|Hlt].
        { left. exists Racer, ETIMEDOUT. cbn. rewrite Hm. cbn. rewrite Hp, Hown. cbn.
          pose proof ETIMEDOUT_pos as Hpos.
          destruct (Z.eqb_spec ETIMEDOUT 0) as [E|_]; [lia|]. cbn.
          rewrite Z.eqb_refl. apply Z.leb_le in Hle. rewrite Hle. cbn. eauto. }
        right. right. left. exists abstime. auto.
  - (* pthread_cancel *)
    left. exists Racer, 0. cbn. rewrite Hm. cbn. destruct (worker s); eauto.
  - (* pthread_join *)
    cbn in Hrh, Hrb. destruct Hrh as (Hh & Hsp). destruct Hrb as (Hj & Hc).
    destruct (worker s) as [|p|b] eqn:Hw.
    + rewrite Hsp in L1. discriminate L1.
    + assert (Hown : owner s <> Some Racer).
      { intros H. apply Ho in H. destruct H. congruence. }
      destruct (waiter_moves s p Hr Hw Hown) as [(env & s' & H)|(Hn & Hal)];
        [left; eauto|].
      destruct (cancel_req s) eqn:Hcr.
      * right. left. unfold next_call in Hn. rewrite Hw in Hn.
        destruct p as [u|c' k']; [discriminate Hn|]. injection Hn as ->.
        cbn. rewrite Hw, Hcr. cbn. eauto.
      * right. right. right. repeat split; auto.
        destruct (timed_out (log_of Racer (log s))); [|reflexivity].
        destruct (cancel_pending s Hr (Hc eq_refl)) as [H|[b H]]; congruence.
    + left. exists Racer, 0. cbn. rewrite Hm. cbn. rewrite Hw, L3, Hj. eauto.
Qed.



End Blocking.


(** ** The claims on concrete executions *)

Lemma linux_x86_64_ok : PlatformOK linux_x86_64.
Proof. constructor; cbn; try lia; discriminate. Qed.

Section Linux.
#[local] Existing Instance linux_x86_64.

Ltac evaluated :=
  lazymatch goal with
  | |- grun _ _ = Some ?s => try unfold s; apply grun_final
  | |- _ => idtac
  end;
  vm_compute; reflexivity.
Ltac conjuncts := repeat match goal with |- _ /\ _ => split end.

(** C1 at work: a wait that expires, and a wait that is woken. *)
Lemma timed_out_call_cancels_then_joins :
  let s := final run_timeout (call_on Alive) in
  let s' := final run_exit (call_on Alive) in
  (grun run_timeout (call_on Alive) = Some s /\
   returned s = Some (-1) /\
   spawned (log_of Racer (log s)) = true /\
   after is_unlock (calls (log_of Racer (log s))) =
     [Pthread_cancel; Pthread_join; Set_errno ETIMEDOUT;
      Pthread_cond_destroy; Pthread_condattr_destroy; Pthread_mutex_destroy] /\
   joined s = true /\ -1 = -1 /\ errno s Racer = ETIMEDOUT) /\
  (grun run_exit (call_on Alive) = Some s' /\
   returned s' = Some 0 /\
   spawned (log_of Racer (log s')) = true /\
   after is_unlock (calls (log_of Racer (log s'))) =
     [Pthread_join; Load f_return_val;
      Pthread_cond_destroy; Pthread_condattr_destroy; Pthread_mutex_destroy] /\
   issued is_cancel (log_of Racer (log s')) = false /\
   joined s' = true /\ worker s' = Dead false /\
   recorded (log_of Waiter (log s')) = Some 0 /\
   exists x, reply_to is_waitid (log_of Waiter (log s')) = Some x /\
             0 = if x =? -1 then -1 else 0).
Proof.
  intros s s'. split.
  - assert (H1 : grun run_timeout (call_on Alive) = Some s) by evaluated.
    assert (H2 : returned s = Some (-1)) by evaluated.
    assert (H3 : spawned (log_of Racer (log s)) = true) by evaluated.
    assert (H4 : timed_out (log_of Racer (log s)) = true) by evaluated.
    split; [exact H1|]. split; [exact H2|]. split; [exact H3|].
    pose proof (@racer_cancels_on_timeout_else_returns_outcome linux_x86_64
                  linux_x86_64_ok 42 2000 5000000000 (one_child 42 Alive) 0
                  run_timeout s (-1) H1 H2 H3) as H.
    rewrite H4 in H. exact H.
  - assert (H1 : grun run_exit (call_on Alive) = Some s') by evaluated.
    assert (H2 : returned s' = Some 0) by evaluated.
    assert (H3 : spawned (log_of Racer (log s')) = true) by evaluated.
    assert (H4 : timed_out (log_of Racer (log s')) = false) by evaluated.
    split; [exact H1|]. split; [exact H2|]. split; [exact H3|].
    pose proof (@racer_cancels_on_timeout_else_returns_outcome linux_x86_64
                  linux_x86_64_ok 42 2000 5000000000 (one_child 42 Alive) 0
                  run_exit s' 0 H1 H2 H3) as H.
    rewrite H4 in H. exact H.
Defined.

(** C2 at work: the process terminates during the call and is still
    there, uncollected, when the call has returned. *)
Lemma exit_run_leaves_child_collectible :
  let s := final run_exit (call_on Alive) in
  grun run_exit (call_on Alive) = Some s /\
  (issued is_waitid (log_of Racer (log s)) = false /\
   (count is_waitid (log_of Waiter (log s)) <= 1)%nat /\
   (forall c a, In (c, a) (log_of Waiter (log s)) -> is_waitid c = true ->
      c = Waitid P_PID 42 (Z.lor WNOWAIT WEXITED)) /\
   (reply_to is_waitid (log_of Waiter (log s)) = Some 0 -> procs s 42 = Zombie) /\
   (forall q, one_child 42 Alive q <> Reaped -> procs s q <> Reaped) /\
   (forall acts' s' q, grun acts' s = Some s' ->
      procs s q = Zombie -> procs s' q = Zombie) /\
   (forall v, recorded (log_of Waiter (log s)) = Some v ->
      exists x, reply_to is_waitid (log_of Waiter (log s)) = Some x /\
                v = if x =? -1 then -1 else 0) /\
   (worker s = Dead false ->
      exists x, reply_to is_waitid (log_of Waiter (log s)) = Some x /\
                recorded (log_of Waiter (log s)) = Some (if x =? -1 then -1 else 0))) /\
  reply_to is_waitid (log_of Waiter (log s)) = Some 0 /\ procs s 42 = Zombie.
Proof.
  intros s.
  assert (H1 : grun run_exit (call_on Alive) = Some s) by evaluated.
  split; [exact H1|]. split.
  - exact (@waiter_peeks_and_records linux_x86_64 linux_x86_64_ok
             42 2000 5000000000 (one_child 42 Alive) 0 run_exit s H1).
  - conjuncts; evaluated.
Defined.

(** C3 at work: one and a half seconds from 5.999999999 s. *)
Lemma deadline_of_one_and_a_half_seconds :
  clock_reading (mk_timespec 5 999999999) /\ 0 <= 1500 <= UINT32_MAX /\
  internal_4_deadline (mk_timespec 5 999999999) 1500 = Some (mk_timespec 7 499999999) /\
  match internal_4_deadline (mk_timespec 5 999999999) 1500 with
  | Some d => ts_nanos d = ts_nanos (mk_timespec 5 999999999) + 1500 * 1000000
  | None => False
  end.
Proof.
  assert (H1 : clock_reading (mk_timespec 5 999999999)) by (vm_compute; intuition discriminate).
  assert (H2 : 0 <= 1500 <= UINT32_MAX) by (vm_compute; intuition discriminate).
  split; [exact H1|]. split; [exact H2|]. split; [evaluated|].
  pose proof (@deadline_exact_or_rejected linux_x86_64 linux_x86_64_ok
                (mk_timespec 5 999999999) 1500 H1 H2) as H.
  destruct (internal_4_deadline (mk_timespec 5 999999999) 1500).
  - apply H.
  - destruct H as [H _]. vm_compute in H. discriminate H.
Defined.


(** C4 as stated fails: ten seconds asked five seconds before the clock
    runs out of [time_t].  The deadline overflows, yet [pthread_create]
    has returned 0 before the clock is read, the thread runs
    [wait_for_process] to its end and is joined. *)
Lemma overflow_found_with_thread_running :
  let s := final run_overflow call_late in
  grun run_overflow call_late = Some s /\
  clock_read (log_of Racer (log s)) = Some ts_late /\
  internal_4_deadline ts_late 10000 = None /\
  spawned (log_of Racer (log s)) = true /\
  firstn 9 (calls (log_of Racer (log s))) =
    [Pthread_mutex_init; Pthread_condattr_init; Store f_pid 42;
     Store f_return_val (-1); Pthread_condattr_setclock CLOCK_MONOTONIC;
     Pthread_cond_init; Pthread_create fn_wait_for_process;
     Pthread_mutex_lock; Clock_gettime CLOCK_MONOTONIC] /\
  calls (log_of Waiter (log s)) =
    [Load f_pid; Waitid P_PID 42 (Z.lor WNOWAIT WEXITED); Store f_return_val 0;
     Pthread_mutex_lock; Pthread_cond_signal; Pthread_mutex_unlock] /\
  status (worker s) = WDead false.
Proof. intros s. subst s. conjuncts; evaluated. Qed.

(** The amended C4 at work on the same execution. *)
Lemma overflow_run_spawns_first :
  let s := final run_overflow call_late in
  grun run_overflow call_late = Some s /\
  returned s = Some 0 /\
  clock_read (log_of Racer (log s)) = Some ts_late /\
  clock_reading ts_late /\ 0 <= 10000 <= UINT32_MAX /\
  get_max_time_t < tv_sec ts_late + carried_seconds ts_late 10000 /\
  spawned (log_of Racer (log s)) = true /\
  issued is_timedwait (log_of Racer (log s)) = false /\
  issued is_cancel (log_of Racer (log s)) = false /\
  worker s = Dead false /\ joined s = true.
Proof.
  intros s.
  assert (H1 : grun run_overflow call_late = Some s) by evaluated.
  assert (H2 : returned s = Some 0) by evaluated.
  assert (H3 : clock_read (log_of Racer (log s)) = Some ts_late) by evaluated.
  assert (H4 : clock_reading ts_late) by (vm_compute; intuition discriminate).
  assert (H5 : 0 <= 10000 <= UINT32_MAX) by (vm_compute; intuition discriminate).
  assert (H6 : get_max_time_t < tv_sec ts_late + carried_seconds ts_late 10000)
    by evaluated.
  repeat (split; [assumption|]).
  apply (@overflow_detected_after_spawn linux_x86_64 linux_x86_64_ok
           42 10000 9223372036854775802000000000 (one_child 42 Zombie) 0
           run_overflow s 0 ts_late H1 H2 H3 H4 H5 H6).
Defined.



(** C6 fails on the code: [clock_gettime] fails with [EINVAL] after the
    thread was created; [wait_timeout_untraced_internal_4] returns -1,
    which is not [ETIMEDOUT], so the calling thread joins and returns
    [return_val], the 0 the spawned thread recorded. *)
Lemma clock_failure_swallowed :
  let s := final run_clock_fails (call_on Zombie) in
  grun run_clock_fails (call_on Zombie) = Some s /\
  spawned (log_of Racer (log s)) = true /\
  reply_to is_clock (log_of Racer (log s)) = Some (-1) /\
  issued is_timedwait (log_of Racer (log s)) = false /\
  recorded (log_of Waiter (log s)) = Some 0 /\
  caller_sees s = Some (0, EINVAL).
Proof. intros s. subst s. conjuncts; evaluated. Qed.

(** C7 as stated fails: when the spawned thread is about to write
    [return_val] nobody holds the mutex, and it takes the mutex only after
    the write. *)
Lemma outcome_written_without_guard :
  let s := final run_to_store (call_on Zombie) in
  let s' := final (run_to_store ++ [wk]) (call_on Zombie) in
  grun run_to_store (call_on Zombie) = Some s /\
  next_call s = Some (Store f_return_val 0) /\
  owner s = None /\
  grun (run_to_store ++ [wk]) (call_on Zombie) = Some s' /\
  calls (log_of Waiter (log s')) =
    [Load f_pid; Waitid P_PID 42 (Z.lor WNOWAIT WEXITED); Store f_return_val 0] /\
  mem s' f_return_val = 0 /\
  next_call s' = Some Pthread_mutex_lock /\
  guarded (is_store_to f_return_val) (log_of Waiter (log s')) = false.
Proof. intros s s'. subst s s'. conjuncts; evaluated. Qed.

(** The amended C7 at work at the state before the write. *)
Lemma outcome_write_state :
  let s := final run_to_store (call_on Zombie) in
  grun run_to_store (call_on Zombie) = Some s /\
  (count (is_store_to f_return_val) (log_of Waiter (log s)) <= 1)%nat /\
  (forall f v k, worker s = Live (Call (Store f v) k) ->
     f = f_return_val /\ owner s <> Some Waiter) /\
  next_call s = Some (Store f_return_val 0).
Proof.
  intros s.
  assert (H1 : grun run_to_store (call_on Zombie) = Some s) by evaluated.
  pose proof (@outcome_written_once_outside_guard linux_x86_64 linux_x86_64_ok
                42 2000 5000000000 (one_child 42 Zombie) 0 run_to_store s H1)
    as (Hc & _ & _ & Hs & _).
  split; [exact H1|]. split; [exact Hc|]. split; [exact Hs|]. evaluated.
Defined.

(** C8 fails on the code: process 42 has terminated before the call.
    The spawned thread finds it at once, records 0 and signals while no
    thread is blocked on the condition variable; the calling thread locks
    only then, waits for a signal that was already given, and two seconds
    later reports a timeout. *)
Lemma wakeup_lost_when_waiter_finishes_first :
  let s := final run_lost (call_on Zombie) in
  grun run_lost (call_on Zombie) = Some s /\
  who_called (log s) =
    [(Racer, Pthread_mutex_init); (Racer, Pthread_condattr_init);
     (Racer, Store f_pid 42); (Racer, Store f_return_val (-1));
     (Racer, Pthread_condattr_setclock CLOCK_MONOTONIC);
     (Racer, Pthread_cond_init); (Racer, Pthread_create fn_wait_for_process);
     (Waiter, Load f_pid); (Waiter, Waitid P_PID 42 (Z.lor WNOWAIT WEXITED));
     (Waiter, Store f_return_val 0); (Waiter, Pthread_mutex_lock);
     (Waiter, Pthread_cond_signal); (Waiter, Pthread_mutex_unlock);
     (Racer, Pthread_mutex_lock); (Racer, Clock_gettime CLOCK_MONOTONIC);
     (Racer, Pthread_cond_timedwait (mk_timespec 7 0));
     (Racer, Pthread_mutex_unlock); (Racer, Pthread_cancel);
     (Racer, Pthread_join); (Racer, Set_errno ETIMEDOUT);
     (Racer, Pthread_cond_destroy); (Racer, Pthread_condattr_destroy);
     (Racer, Pthread_mutex_destroy)] /\
  guarded is_signal (log_of Waiter (log s)) = true /\
  parked (final (repeat go 7 ++ repeat wk 4) (call_on Zombie)) = None /\
  next_call (final (repeat go 7 ++ repeat wk 4) (call_on Zombie)) =
    Some Pthread_cond_signal /\
  reply_to is_waitid (log_of Waiter (log s)) = Some 0 /\
  procs s 42 = Zombie /\
  timed_out (log_of Racer (log s)) = true /\
  caller_sees s = Some (-1, ETIMEDOUT).
Proof. intros s. subst s. conjuncts; evaluated. Qed.

(** C9 at work on the failed thread creation and on the expired wait. *)
Lemma early_and_late_exits_leave_nothing :
  let s := final run_create_fails (call_on Alive) in
  let s' := final run_timeout (call_on Alive) in
  (grun run_create_fails (call_on Alive) = Some s /\
   returned s = Some (-1) /\
   outstanding (log_of Racer (log s)) = no_resources /\
   worker s = Unborn) /\
  (grun run_timeout (call_on Alive) = Some s' /\
   returned s' = Some (-1) /\
   outstanding (log_of Racer (log s')) = no_resources /\
   (exists b, worker s' = Dead b) /\ joined s' = true /\
   exists c, after is_join (calls (log_of Racer (log s'))) =
               [c; Pthread_cond_destroy; Pthread_condattr_destroy;
                Pthread_mutex_destroy]).
Proof.
  intros s s'. split.
  - assert (H1 : grun run_create_fails (call_on Alive) = Some s) by evaluated.
    assert (H2 : returned s = Some (-1)) by evaluated.
    assert (H3 : spawned (log_of Racer (log s)) = false) by evaluated.
    pose proof (@nothing_outlives_the_call linux_x86_64 linux_x86_64_ok
                  42 2000 5000000000 (one_child 42 Alive) 0
                  run_create_fails s (-1) H1 H2) as H.
    rewrite H3 in H. split; [exact H1|]. split; [exact H2|]. exact H.
  - assert (H1 : grun run_timeout (call_on Alive) = Some s') by evaluated.
    assert (H2 : returned s' = Some (-1)) by evaluated.
    assert (H3 : spawned (log_of Racer (log s')) = true) by evaluated.
    pose proof (@nothing_outlives_the_call linux_x86_64 linux_x86_64_ok
                  42 2000 5000000000 (one_child 42 Alive) 0
                  run_timeout s' (-1) H1 H2) as H.
    rewrite H3 in H. split; [exact H1|]. split; [exact H2|]. exact H.
Defined.

(** C10 fails on the code, both ways.  The process terminates right after
    the thread was created, the spawned thread's [waitid] returns 0 at
    second 5, two seconds before the deadline of second 7, and the call
    returns -1 with [errno] at [ETIMEDOUT]; and on a 32-bit [time_t] a
    call whose deadline overflows, a failed setup, returns 0. *)
Lemma result_not_tied_to_the_deadline :
  let s := final run_lost_during (call_on Alive) in
  let s' := @final linux_ilp32 run_overflow call_late_32 in
  (grun run_lost_during (call_on Alive) = Some s /\
   reply_to is_waitid (log_of Waiter (log s)) = Some 0 /\
   now (final (repeat go 7 ++ [ChildExit 42] ++ repeat wk 2) (call_on Alive))
     = 5000000000 /\
   armed (log_of Racer (log s)) = Some (mk_timespec 7 0) /\
   caller_sees s = Some (-1, ETIMEDOUT)) /\
  (@grun linux_ilp32 run_overflow call_late_32 = Some s' /\
   clock_read (log_of Racer (log s')) = Some (mk_timespec 2147483644 0) /\
   @internal_4_deadline linux_ilp32 (mk_timespec 2147483644 0) 10000 = None /\
   armed (log_of Racer (log s')) = None /\
   caller_sees s' = Some (0, 0)).
Proof. intros s s'. subst s s'. conjuncts; evaluated. Qed.

(** ** The further properties on concrete executions *)

(** The result range at work: the woken call returns 0. *)
Lemma woken_call_result_in_range :
  let s := final run_exit (call_on Alive) in
  grun run_exit (call_on Alive) = Some s /\ returned s = Some 0 /\
  (0 = 0 \/ 0 = -1).
Proof.
  intros s.
  assert (H1 : grun run_exit (call_on Alive) = Some s) by evaluated.
  assert (H2 : returned s = Some 0) by evaluated.
  do 2 (split; [assumption|]).
  apply (@result_is_0_or_minus_1 linux_x86_64 linux_x86_64_ok
           42 2000 5000000000 (one_child 42 Alive) 0 run_exit s 0 H1 H2).
Defined.

(** The 64-bit [time_t] of Linux x86-64. *)
Lemma time_t_of_linux_x86_64 :
  1 <= bits time_t /\
  (forall z, min_of time_t <= cast time_t z <= get_max_time_t) /\
  cast time_t get_max_time_t = get_max_time_t /\
  cast time_t (get_max_time_t + 1) = min_of time_t.
Proof.
  assert (H1 : 1 <= bits time_t) by (vm_compute; discriminate).
  split; [exact H1|].
  apply (@get_max_time_t_is_greatest linux_x86_64 H1).
Defined.

(** A two-second timeout asked five seconds after boot is not rejected,
    and a timeout of zero leaves the reading as it is. *)
Lemma deadline_far_from_the_end :
  clock_reading (mk_timespec 5 0) /\ 0 <= 2000 <= UINT32_MAX /\
  tv_sec (mk_timespec 5 0) + 4294968 <= get_max_time_t /\
  internal_4_deadline (mk_timespec 5 0) 2000 <> None /\
  internal_4_deadline (mk_timespec 5 0) 0 = Some (mk_timespec 5 0).
Proof.
  assert (H1 : clock_reading (mk_timespec 5 0)) by (vm_compute; intuition discriminate).
  assert (H2 : 0 <= 2000 <= UINT32_MAX) by (vm_compute; intuition discriminate).
  assert (H3 : tv_sec (mk_timespec 5 0) + 4294968 <= get_max_time_t)
    by (vm_compute; discriminate).
  do 3 (split; [assumption|]).
  pose proof (@overflow_only_near_the_end_of_time linux_x86_64 linux_x86_64_ok
                (mk_timespec 5 0) 2000 H1 H2) as [Ha Hb].
  split; [exact (Ha H3) | exact Hb].
Defined.

(** A call that returned 0: process 42 has terminated and is a zombie. *)
Lemma woken_call_leaves_a_zombie :
  let s := final run_exit (call_on Alive) in
  grun run_exit (call_on Alive) = Some s /\ returned s = Some 0 /\
  timed_out (log_of Racer (log s)) = false /\
  worker s = Dead false /\ joined s = true /\
  reply_to is_waitid (log_of Waiter (log s)) = Some 0 /\
  procs s 42 = Zombie.
Proof.
  intros s.
  assert (H1 : grun run_exit (call_on Alive) = Some s) by evaluated.
  assert (H2 : returned s = Some 0) by evaluated.
  do 2 (split; [assumption|]).
  apply (@success_means_terminated linux_x86_64 linux_x86_64_ok
           42 2000 5000000000 (one_child 42 Alive) 0 run_exit s H1 H2).
Defined.



(** The spawned thread about to unlock owns the mutex; the calling thread
    is parked and does not. *)
Lemma unlocking_thread_owns_the_mutex :
  let s := final run_to_unlock (call_on Alive) in
  grun run_to_unlock (call_on Alive) = Some s /\
  next_call s = Some Pthread_mutex_unlock /\
  parked s = Some Racer /\
  owner s = Some Waiter /\ owner s <> Some Racer.
Proof.
  intros s.
  assert (H1 : grun run_to_unlock (call_on Alive) = Some s) by evaluated.
  assert (H2 : next_call s = Some Pthread_mutex_unlock) by evaluated.
  assert (H3 : parked s = Some Racer) by evaluated.
  do 3 (split; [assumption|]).
  pose proof (@mutex_used_as_posix_requires linux_x86_64 linux_x86_64_ok
                42 2000 5000000000 (one_child 42 Alive) 0 run_to_unlock s H1)
    as (_ & _ & _ & _ & Ha & _ & Hb).
  split; [exact (Ha H2)|]. apply Hb. rewrite H3. discriminate.
Defined.

(** The woken caller about to destroy the condition variable. *)
Lemma destroy_after_join :
  let s := final run_to_destroy (call_on Alive) in
  grun run_to_destroy (call_on Alive) = Some s /\
  pending_call s = Some Pthread_cond_destroy /\
  owner s = None /\ parked s = None /\
  (worker s = Unborn \/ exists b, worker s = Dead b /\ joined s = true).
Proof.
  intros s.
  assert (H1 : grun run_to_destroy (call_on Alive) = Some s) by evaluated.
  assert (H2 : pending_call s = Some Pthread_cond_destroy) by evaluated.
  do 2 (split; [assumption|]).
  apply (@primitives_destroyed_idle linux_x86_64 linux_x86_64_ok
           42 2000 5000000000 (one_child 42 Alive) 0 run_to_destroy s
           Pthread_cond_destroy H1 H2 (or_introl eq_refl)).
Defined.

(** The two-second timeout asked at 5 s is reported at 7 s or later. *)
Lemma two_seconds_are_waited :
  let s := final run_timeout (call_on Alive) in
  0 <= 5000000000 /\ 5000000000 / NSEC_PER_SEC <= get_max_time_t /\
  0 <= 2000 <= UINT32_MAX /\
  grun run_timeout (call_on Alive) = Some s /\
  timed_out (log_of Racer (log s)) = true /\
  5000000000 + 2000 * 1000000 <= now s.
Proof.
  intros s.
  assert (H1 : 0 <= 5000000000) by (vm_compute; discriminate).
  assert (H2 : 5000000000 / NSEC_PER_SEC <= get_max_time_t) by (vm_compute; discriminate).
  assert (H3 : 0 <= 2000 <= UINT32_MAX) by (vm_compute; intuition discriminate).
  assert (H4 : grun run_timeout (call_on Alive) = Some s) by evaluated.
  assert (H5 : timed_out (log_of Racer (log s)) = true) by evaluated.
  do 5 (split; [assumption|]).
  apply (@no_timeout_before_the_deadline linux_x86_64 linux_x86_64_ok
           42 2000 5000000000 (one_child 42 Alive) 0 run_timeout s H1 H2 H3 H4 H5).
Defined.


(** [clock_gettime] failed and process 42 lives: the calling thread sits
    in [pthread_join], the spawned thread in [waitid]. *)
Lemma skipped_wait_blocks_on_the_process :
  let s := final run_clock_fails_early (call_on Alive) in
  grun run_clock_fails_early (call_on Alive) = Some s /\ returned s = None /\
  ((exists t env s', gstep (Sched t env) s = Some s') \/
   (exists s', gstep DeliverCancel s = Some s') \/
   (exists d, pending_call s = Some (Pthread_cond_timedwait d) /\
              parked s = Some Racer /\ now s < ts_nanos d) \/
   (pending_call s = Some Pthread_join /\
    next_call s = Some (Waitid P_PID 42 (Z.lor WNOWAIT WEXITED)) /\
    procs s 42 = Alive /\ timed_out (log_of Racer (log s)) = false)).
Proof.
  intros s.
  assert (H1 : grun run_clock_fails_early (call_on Alive) = Some s) by evaluated.
  assert (H2 : returned s = None) by evaluated.
  do 2 (split; [assumption|]).
  apply (@call_never_deadlocks linux_x86_64 linux_x86_64_ok
           42 2000 5000000000 (one_child 42 Alive) 0 run_clock_fails_early s H1 H2).
Defined.


End Linux.
